(** * Service Hub: the application lifecycle orchestrator

    A shallow embedding of [application/managers/applications.py]
    ([ApplicationManager.install], [upgrade], [update_user_inputs] and
    [terminate]) together with the properties of its rollback, diffing,
    input merging, validation and persistence behaviour; the role check
    of [application/core/authentication.py] ([BaseRolePermission.authorize]
    and [AuthorizedUser]); and the preparation of Helm's time stamps in
    [application/services/helm/schemas.py]
    ([helm_datetime.parse_datetime]).

    Python dictionaries whose iteration order is never observed (user inputs,
    result maps) are [gmap]s; dictionaries that are iterated (the chart and
    input mappings of a parsed manifest) are association lists in insertion
    order; key views combined with [-] and [&] are [gset]s. *)

From Stdlib Require Import Ascii.
From stdpp Require Import gmap strings list pretty.


(** ** Exceptions *)

(** The exception classes that the orchestrator names, and one constructor
    for every other exception a collaborator may raise. *)
Inductive exn :=
| HelmException (message : string)
| InvalidUserInputsException (message : string)
| CommonException (message : string) (status_code : Z)
| KeyError (key : string)
| OtherException (description : string).

#[global] Instance exn_eq_dec : EqDecision exn.
Proof. solve_decision. Defined.

Definition is_HelmException (e : exn) : bool :=
  match e with HelmException _ => true | _ => false end.

Definition HTTP_400_BAD_REQUEST : Z := 400.

(** ** Data model *)

Module Organization.
Record t := { id : Z }.
End Organization.

Module User.
(** [id] is the UUID already rendered by [str(user.id)]. *)
Record t := { id : string; organization : Organization.t }.
End User.

Module TemplateRevision.
Record t := { id : Z; template : string }.
End TemplateRevision.

Module Chart.
Record t (value : Type) :=
  { name : string; chart : string; version : string; values : value }.
Arguments name {value} _.
Arguments chart {value} _.
Arguments version {value} _.
Arguments values {value} _.
End Chart.

Module Input.
(** [default] is [Some d] exactly when ['default'] is in the input's
    [__fields_set__]. *)
Record t (value : Type) :=
  { name : string; default : option value; immutable : bool }.
Arguments name {value} _.
Arguments default {value} _.
Arguments immutable {value} _.
End Input.

Module TemplateSchema.
(** The object returned by [load_template]. The two mappings are kept as
    the parser hands them over, in insertion order. *)
Record t (value : Type) :=
  { name : string;
    inputs : list (Input.t value);
    charts : list (Chart.t value);
    chart_mapping : list (string * Chart.t value);
    inputs_mapping : list (string * Input.t value) }.
Arguments name {value} _.
Arguments inputs {value} _.
Arguments charts {value} _.
Arguments chart_mapping {value} _.
Arguments inputs_mapping {value} _.
End TemplateSchema.

(** Modelled from the spec: [application.constants.applications] is not
    part of the sources; [running] is the only status the orchestrator
    ever sets. *)
Inductive ApplicationStatuses := running.

Module Application.
Record t (value : Type) :=
  { id : Z;
    name : string;
    description : string;
    manifest : string;
    status : ApplicationStatuses;
    context_name : string;
    namespace : string;
    user_inputs : gmap string value;
    template : TemplateRevision.t;
    creator_id : string;
    organization : Organization.t }.
Arguments id {value} _.
Arguments name {value} _.
Arguments description {value} _.
Arguments manifest {value} _.
Arguments status {value} _.
Arguments context_name {value} _.
Arguments namespace {value} _.
Arguments user_inputs {value} _.
Arguments template {value} _.
Arguments creator_id {value} _.
Arguments organization {value} _.

Definition set_manifest {value} (m : string) (a : t value) : t value :=
  {| id := id a; name := name a; description := description a;
     manifest := m; status := status a; context_name := context_name a;
     namespace := namespace a; user_inputs := user_inputs a;
     template := template a; creator_id := creator_id a;
     organization := organization a |}.

Definition set_template {value} (r : TemplateRevision.t) (a : t value)
  : t value :=
  {| id := id a; name := name a; description := description a;
     manifest := manifest a; status := status a;
     context_name := context_name a; namespace := namespace a;
     user_inputs := user_inputs a; template := r;
     creator_id := creator_id a; organization := organization a |}.

Definition set_user_inputs {value} (i : gmap string value) (a : t value)
  : t value :=
  {| id := id a; name := name a; description := description a;
     manifest := manifest a; status := status a;
     context_name := context_name a; namespace := namespace a;
     user_inputs := i; template := template a;
     creator_id := creator_id a; organization := organization a |}.
End Application.

(** ** Python dictionaries *)

(** [d.keys()] as a set, the operand of [-], [&] and [!=]. *)
Definition dict_keys {V} (d : list (string * V)) : gset string :=
  list_to_set (d.*1).

(** [d[k]]: the value stored under [k], or [KeyError]. *)
Definition dict_getitem {V} (k : string) (d : list (string * V)) : exn + V :=
  match list_find (λ kv, kv.1 = k) d with
  | Some (_, (_, v)) => inr v
  | None => inl (KeyError k)
  end.

Definition gmap_getitem {V} (k : string) (d : gmap string V) : exn + V :=
  match d !! k with
  | Some v => inr v
  | None => inl (KeyError k)
  end.

(** [{**a, **b}]: the entries of [b] win. *)
Definition dict_merge {V} (a b : gmap string V) : gmap string V := b ∪ a.

(** [enumerate(l)]. *)
Definition enumerate {A} (l : list A) : list (nat * A) :=
  zip (seq 0 (length l)) l.

(** The double-quote character used in the log messages. *)
Definition dquote : string := String "034"%char EmptyString.

(** ** The chart operations client *)

(** One call of [HelmManager]. [uninstall_release] is called both with and
    without the [dry_run] keyword; [None] is the call that leaves it out. *)
Inductive HelmCall (value : Type) :=
| install_chart (organization : Organization.t)
    (context_name namespace release_name chart_name version : string)
    (values : value) (dry_run : bool)
| update_release (organization : Organization.t)
    (context_name namespace release_name chart_name : string)
    (values : value) (dry_run : bool)
| uninstall_release (organization : Organization.t)
    (context_name namespace release_name : string) (dry_run : option bool).
Arguments install_chart {value}.
Arguments update_release {value}.
Arguments uninstall_release {value}.

Definition is_install {value} (c : HelmCall value) : bool :=
  match c with install_chart _ _ _ _ _ _ _ _ => true | _ => false end.
Definition is_update {value} (c : HelmCall value) : bool :=
  match c with update_release _ _ _ _ _ _ _ => true | _ => false end.
Definition is_uninstall {value} (c : HelmCall value) : bool :=
  match c with uninstall_release _ _ _ _ _ => true | _ => false end.

(** The [dry_run] argument a call was issued with. *)
Definition call_dry_run {value} (c : HelmCall value) : option bool :=
  match c with
  | install_chart _ _ _ _ _ _ _ d => Some d
  | update_release _ _ _ _ _ _ d => Some d
  | uninstall_release _ _ _ _ d => d
  end.

Definition call_release_name {value} (c : HelmCall value) : string :=
  match c with
  | install_chart _ _ _ n _ _ _ _ => n
  | update_release _ _ _ n _ _ _ => n
  | uninstall_release _ _ _ n _ => n
  end.

(** ** Collaborators

    The template utilities ([application.utils.template]) and the Helm
    manager are used through their interfaces only. [W] is the state of the
    cluster as the chart backend sees it, [R] what a chart operation returns.
    [value_ne] is Python's [!=] on input values and [set_iter] the order in
    which a [set] of release names is iterated. *)
Class Collaborators (value R W : Type) := {
  value_ne : value → value → bool;
  validate_inputs : string → gmap string value → exn + unit;
  render_template : string → gmap string value → exn + string;
  load_template : string → exn + TemplateSchema.t value;
  helm_manager : HelmCall value → W → (exn + R) * W;
  set_iter : gset string → list string
}.

(** ** Persistence *)

(** Modelled from the spec: [ApplicationDatabase] ([application.crud]) is
    not part of the sources. The store keeps application records by
    identity; [create] files the record under a fresh identity, [save]
    overwrites the record of that identity and [delete] removes it. *)
Record Store (value : Type) :=
  { records : gmap Z (Application.t value); next_id : Z }.
Arguments records {value} _.
Arguments next_id {value} _.

(** ** Orchestrator state and its monad *)

Record State (value W : Type) :=
  { helm : W;
    trace : list (HelmCall value * option exn);
    logs : list string;
    db : Store value }.
Arguments helm {value W} _.
Arguments trace {value W} _.
Arguments logs {value W} _.
Arguments db {value W} _.

Definition raised {A} (r : exn + A) : option exn :=
  match r with inl e => Some e | inr _ => None end.

Section Orchestrator.
Context {value R W : Type} {collaborators : Collaborators value R W}.

(** A computation either raises or returns; its effects stay either way. *)
Definition M (A : Type) : Type :=
  State value W → (exn + A) * State value W.

#[global] Instance M_ret : MRet M := λ A a st, (inr a, st).

#[global] Instance M_bind : MBind M := λ A B f m st,
  match m st with
  | (inl e, st') => (inl e, st')
  | (inr a, st') => f a st'
  end.

Definition raise {A} (e : exn) : M A := λ st, (inl e, st).

(** A call of a pure utility that may raise. *)
Definition lift {A} (r : exn + A) : M A := λ st, (r, st).

(** [try: body  except HelmException: handler]; the handler receives the
    exception so that a bare [raise] can raise it again. *)
Definition try_except_HelmException {A} (body : M A) (handler : exn → M A)
  : M A := λ st,
  match body st with
  | (inl (HelmException m), st') => handler (HelmException m) st'
  | r => r
  end.

Fixpoint for_each {A} (l : list A) (body : A → M unit) : M unit :=
  match l with
  | [] => mret ()
  | x :: l' => body x ;; for_each l' body
  end.

(** [await self.helm_manager.<operation>(...)]: the backend runs and the
    call is recorded together with what it raised, if anything. *)
Definition await (call : HelmCall value) : M R := λ st,
  let '(r, w) := helm_manager call (helm st) in
  (r, {| helm := w; trace := trace st ++ [(call, raised r)];
         logs := logs st; db := db st |}).

Definition logging_exception (message : string) : M unit := λ st,
  (inr (), {| helm := helm st; trace := trace st;
              logs := logs st ++ [message]; db := db st |}).

(** Modelled from the spec: [ApplicationDatabase.create]. The argument is
    the record to create, as a function of the identity the store gives
    it; the created record is returned. *)
Definition db_create (application : Z → Application.t value)
  : M (Application.t value) := λ st,
  let record := application (next_id (db st)) in
  (inr record,
   {| helm := helm st; trace := trace st; logs := logs st;
      db := {| records := <[next_id (db st) := record]> (records (db st));
               next_id := next_id (db st) + 1 |} |}).

(** Modelled from the spec: [ApplicationDatabase.save]. Assigning to the
    fields of [application] and saving it is one write of the updated
    record. *)
Definition db_save (application : Application.t value) : M unit := λ st,
  (inr (),
   {| helm := helm st; trace := trace st; logs := logs st;
      db := {| records :=
                 <[Application.id application := application]>
                   (records (db st));
               next_id := next_id (db st) |} |}).

(** Modelled from the spec: [ApplicationDatabase.delete]. *)
Definition db_delete (id : Z) : M unit := λ st,
  (inr (),
   {| helm := helm st; trace := trace st; logs := logs st;
      db := {| records := delete id (records (db st));
               next_id := next_id (db st) |} |}).

(** *** install *)

Definition install_failed_message (chart : Chart.t value) (user : User.t)
    (template : TemplateRevision.t) : string :=
  "Application installation failed. Failed to install Helm chart "
  +:+ dquote +:+ Chart.chart chart +:+ dquote
  +:+ ". <Organization: id="
  +:+ pretty (Organization.id (User.organization user))
  +:+ "> <Template: id=" +:+ pretty (TemplateRevision.id template) +:+ ">".

Definition install_cleanup_message (chart : Chart.t value) (user : User.t)
    (template : TemplateRevision.t) : string :=
  "Failed to remove release " +:+ dquote +:+ Chart.name chart +:+ dquote
  +:+ " during clean up after application installation failure. "
  +:+ "<Organization: id="
  +:+ pretty (Organization.id (User.organization user))
  +:+ "> <Template: id=" +:+ pretty (TemplateRevision.id template) +:+ ">".

Definition install_call (context_name namespace : string) (user : User.t)
    (dry_run : bool) (chart : Chart.t value) : HelmCall value :=
  install_chart (User.organization user) context_name namespace
    (Chart.name chart) (Chart.chart chart) (Chart.version chart)
    (Chart.values chart) dry_run.

Definition install_rollback_call (context_name namespace : string)
    (user : User.t) (chart : Chart.t value) : HelmCall value :=
  uninstall_release (User.organization user) context_name namespace
    (Chart.name chart) None.

(** The [for index, chart in enumerate(...)] loop. When a call raises, the
    loop variables [index] and [chart] come back with the exception: the
    handler around the loop reads them. *)
Fixpoint install_charts (context_name namespace : string) (user : User.t)
    (dry_run : bool) (todo : list (nat * Chart.t value))
    (results : gmap string R) (st : State value W)
  : (exn * nat * Chart.t value + gmap string R) * State value W :=
  match todo with
  | [] => (inr results, st)
  | (index, chart) :: todo' =>
      match await (install_call context_name namespace user dry_run chart) st
      with
      | (inl e, st') => (inl (e, index, chart), st')
      | (inr r, st') =>
          install_charts context_name namespace user dry_run todo'
            (<[Chart.name chart := r]> results) st'
      end
  end.

Definition install_rollback (context_name namespace : string) (user : User.t)
    (template : TemplateRevision.t) (installed : list (Chart.t value))
  : M unit :=
  for_each (reverse installed) (λ chart,
    try_except_HelmException
      (await (install_rollback_call context_name namespace user chart) ;;
       mret ())
      (λ _, logging_exception
              (install_cleanup_message chart user template))).

Definition install (context_name namespace : string) (user : User.t)
    (template : TemplateRevision.t) (inputs : gmap string value)
    (dry_run : bool)
  : M (option (Application.t value) * gmap string R) :=
  lift (validate_inputs (TemplateRevision.template template) inputs) ;;
  manifest ← lift (render_template (TemplateRevision.template template)
                     inputs);
  manifest_schema ← lift (load_template manifest);
  results ← (λ st,
    match install_charts context_name namespace user dry_run
            (enumerate (TemplateSchema.charts manifest_schema)) ∅ st
    with
    | (inl (HelmException m, index, chart), st') =>
        ((if negb dry_run then
            logging_exception (install_failed_message chart user template) ;;
            install_rollback context_name namespace user template
              (take index (TemplateSchema.charts manifest_schema))
          else mret ()) ;;
         raise (HelmException m)) st'
    | (inl (e, _, _), st') => (inl e, st')
    | (inr results, st') => (inr results, st')
    end);
  application_record ←
    (if negb dry_run then
       record ← db_create (λ id,
         {| Application.id := id;
            Application.name := TemplateSchema.name manifest_schema;
            Application.description := EmptyString;
            Application.manifest := manifest;
            Application.status := running;
            Application.context_name := context_name;
            Application.namespace := namespace;
            Application.user_inputs := inputs;
            Application.template := template;
            Application.creator_id := User.id user;
            Application.organization := User.organization user |});
       mret (Some record)
     else mret None);
  mret (application_record, results).

(** *** upgrade *)

(** [{input.name: input.default for input in inputs
      if 'default' in input.__fields_set__}]: a later input of the same
    name overwrites an earlier one. *)
Definition input_defaults (inputs : list (Input.t value))
  : gmap string value :=
  foldl (λ defaults input,
           match Input.default input with
           | Some d => <[Input.name input := d]> defaults
           | None => defaults
           end) ∅ inputs.

(** [{**input_defaults, **application.user_inputs}]. *)
Definition upgrade_user_inputs (new_template_schema : TemplateSchema.t value)
    (application : Application.t value) : gmap string value :=
  dict_merge (input_defaults (TemplateSchema.inputs new_template_schema))
    (Application.user_inputs application).

Definition charts_to_install (old_template_schema new_template_schema
    : TemplateSchema.t value) : gset string :=
  dict_keys (TemplateSchema.chart_mapping new_template_schema)
  ∖ dict_keys (TemplateSchema.chart_mapping old_template_schema).

Definition releases_to_remove (old_template_schema new_template_schema
    : TemplateSchema.t value) : gset string :=
  dict_keys (TemplateSchema.chart_mapping old_template_schema)
  ∖ dict_keys (TemplateSchema.chart_mapping new_template_schema).

Definition releases_to_update (old_template_schema new_template_schema
    : TemplateSchema.t value) : gset string :=
  dict_keys (TemplateSchema.chart_mapping old_template_schema)
  ∩ dict_keys (TemplateSchema.chart_mapping new_template_schema).

Definition upgrade_failed_message (chart : Chart.t value)
    (application : Application.t value) (template : TemplateRevision.t)
  : string :=
  "Application upgrade failed. Failed to install Helm chart "
  +:+ dquote +:+ Chart.chart chart +:+ dquote
  +:+ ". <Organization: id="
  +:+ pretty (Organization.id (Application.organization application))
  +:+ "> <Template: id=" +:+ pretty (TemplateRevision.id template) +:+ ">".

Definition upgrade_cleanup_message (chart : Chart.t value)
    (application : Application.t value) (template : TemplateRevision.t)
  : string :=
  "Failed to remove release " +:+ dquote +:+ Chart.name chart +:+ dquote
  +:+ " during clean up after application upgrade failure. "
  +:+ "<Organization: id="
  +:+ pretty (Organization.id (Application.organization application))
  +:+ "> <Template: id=" +:+ pretty (TemplateRevision.id template) +:+ ">".

Definition upgrade_remove_message (chart : Chart.t value)
    (application : Application.t value) : string :=
  "Failed to remove release " +:+ dquote +:+ Chart.name chart +:+ dquote
  +:+ " during application upgrade. <Organization: id="
  +:+ pretty (Organization.id (Application.organization application))
  +:+ "> <Template: id="
  +:+ pretty (TemplateRevision.id (Application.template application))
  +:+ ">".

Definition application_install_call (application : Application.t value)
    (dry_run : bool) (chart : Chart.t value) : HelmCall value :=
  install_chart (Application.organization application)
    (Application.context_name application)
    (Application.namespace application)
    (Chart.name chart) (Chart.chart chart) (Chart.version chart)
    (Chart.values chart) dry_run.

Definition application_update_call (application : Application.t value)
    (dry_run : bool) (release_name : string) (chart : Chart.t value)
  : HelmCall value :=
  update_release (Application.organization application)
    (Application.context_name application)
    (Application.namespace application)
    release_name (Chart.chart chart) (Chart.values chart) dry_run.

Definition application_uninstall_call (application : Application.t value)
    (dry_run : option bool) (chart : Chart.t value) : HelmCall value :=
  uninstall_release (Application.organization application)
    (Application.context_name application)
    (Application.namespace application)
    (Chart.name chart) dry_run.

Definition upgrade_rollback (application : Application.t value)
    (template : TemplateRevision.t) (installed_charts : list (Chart.t value))
  : M unit :=
  for_each (reverse installed_charts) (λ chart,
    try_except_HelmException
      (await (application_uninstall_call application None chart) ;; mret ())
      (λ _, logging_exception
              (upgrade_cleanup_message chart application template))).

(** The [for release_name in charts_to_install] loop; [install_results]
    and [installed_charts] are its accumulators. *)
Fixpoint upgrade_install (application : Application.t value)
    (template : TemplateRevision.t) (dry_run : bool)
    (new_template_schema : TemplateSchema.t value) (todo : list string)
    (install_results : gmap string R)
    (installed_charts : list (Chart.t value)) : M (gmap string R) :=
  match todo with
  | [] => mret install_results
  | release_name :: todo' =>
      chart ← lift (dict_getitem release_name
                      (TemplateSchema.chart_mapping new_template_schema));
      result ← try_except_HelmException
        (await (application_install_call application dry_run chart))
        (λ e,
           (if negb dry_run then
              logging_exception
                (upgrade_failed_message chart application template) ;;
              upgrade_rollback application template installed_charts
            else mret ()) ;;
           raise e);
      upgrade_install application template dry_run new_template_schema todo'
        (<[Chart.name chart := result]> install_results)
        (installed_charts ++ [chart])
  end.

(** The [for release_name in releases_to_update] loop. No handler
    surrounds the call. *)
Fixpoint upgrade_update (application : Application.t value) (dry_run : bool)
    (new_template_schema : TemplateSchema.t value) (todo : list string)
    (update_results : gmap string R) : M (gmap string R) :=
  match todo with
  | [] => mret update_results
  | release_name :: todo' =>
      chart ← lift (dict_getitem release_name
                      (TemplateSchema.chart_mapping new_template_schema));
      result ← await (application_update_call application dry_run
                        release_name chart);
      upgrade_update application dry_run new_template_schema todo'
        (<[release_name := result]> update_results)
  end.

(** The [for release_name in releases_to_remove] loop. *)
Definition upgrade_remove (application : Application.t value)
    (dry_run : bool) (old_template_schema : TemplateSchema.t value)
    (todo : list string) : M unit :=
  for_each todo (λ release_name,
    chart ← lift (dict_getitem release_name
                    (TemplateSchema.chart_mapping old_template_schema));
    try_except_HelmException
      (await (application_uninstall_call application (Some dry_run) chart) ;;
       mret ())
      (λ _, if negb dry_run then
              logging_exception (upgrade_remove_message chart application)
            else mret ())).

Record UpgradeResult := {
  installed_releases : gmap string R;
  updated_releases : gmap string R;
  uninstalled_releases : list string
}.

Definition upgrade (application : Application.t value)
    (template : TemplateRevision.t) (dry_run : bool) : M UpgradeResult :=
  new_template_schema ← lift (load_template
                                (TemplateRevision.template template));
  let user_inputs := upgrade_user_inputs new_template_schema application in
  rendered_template ← lift (render_template
                              (TemplateRevision.template template)
                              user_inputs);
  new_template_schema ← lift (load_template rendered_template);
  old_template_schema ← lift (load_template
                                (Application.manifest application));
  let to_install :=
    charts_to_install old_template_schema new_template_schema in
  let to_remove :=
    releases_to_remove old_template_schema new_template_schema in
  let to_update :=
    releases_to_update old_template_schema new_template_schema in
  install_results ← upgrade_install application template dry_run
                      new_template_schema (set_iter to_install) ∅ [];
  update_results ← upgrade_update application dry_run new_template_schema
                     (set_iter to_update) ∅;
  upgrade_remove application dry_run old_template_schema
    (set_iter to_remove) ;;
  (if negb dry_run then
     db_save (Application.set_user_inputs user_inputs
                (Application.set_template template
                   (Application.set_manifest rendered_template
                      application)))
   else mret ()) ;;
  mret {| installed_releases := install_results;
          updated_releases := update_results;
          uninstalled_releases := set_iter to_remove |}.

(** *** update_user_inputs *)

(** [[name for name, input in inputs_mapping.items() if input.immutable]] *)
Definition immutable_inputs (old_template_schema : TemplateSchema.t value)
  : list string :=
  omap (λ item, if Input.immutable item.2 then Some item.1 else None)
    (TemplateSchema.inputs_mapping old_template_schema).

(** The loop that collects [violating_inputs]; a name that is not a key
    of either dictionary raises [KeyError]. *)
Fixpoint collect_violating_inputs (inputs stored : gmap string value)
    (todo : list string) (violating_inputs : list string)
  : exn + list string :=
  match todo with
  | [] => inr violating_inputs
  | input_name :: todo' =>
      match gmap_getitem input_name inputs with
      | inl e => inl e
      | inr new_value =>
          match gmap_getitem input_name stored with
          | inl e => inl e
          | inr old_value =>
              collect_violating_inputs inputs stored todo'
                (if value_ne new_value old_value
                 then violating_inputs ++ [input_name]
                 else violating_inputs)
          end
      end
  end.

Definition keys_not_equal_message : string :=
  "List of current and new inputs are not equal.".

Definition immutable_message (violating_inputs : list string) : string :=
  "Next inputs are immutable and cannot be changed: "
  +:+ String.concat ", " violating_inputs +:+ ".".

(** The checks between [validate_inputs] and [render_template]. *)
Definition check_user_inputs (old_template_schema : TemplateSchema.t value)
    (stored inputs : gmap string value) : exn + unit :=
  if decide (dom inputs ≠ dom stored) then
    inl (InvalidUserInputsException keys_not_equal_message)
  else
    match collect_violating_inputs inputs stored
            (immutable_inputs old_template_schema) [] with
    | inl e => inl e
    | inr [] => inr ()
    | inr violating_inputs =>
        inl (InvalidUserInputsException (immutable_message violating_inputs))
    end.

Definition absent_releases_message (absent_release_names : list string)
  : string :=
  "Failed to update user inputs. Unable to find charts with release names "
  +:+ String.concat ", " absent_release_names
  +:+ " in manifest rendered with new user inputs.".

(** The [for release_name, chart in chart_mapping.items()] loop. *)
Fixpoint update_releases (application : Application.t value)
    (dry_run : bool) (todo : list (string * Chart.t value))
    (update_results : gmap string R) : M (gmap string R) :=
  match todo with
  | [] => mret update_results
  | (release_name, chart) :: todo' =>
      result ← await (application_update_call application dry_run
                        release_name chart);
      update_releases application dry_run todo'
        (<[release_name := result]> update_results)
  end.

Definition update_user_inputs (application : Application.t value)
    (inputs : gmap string value) (dry_run : bool) : M (gmap string R) :=
  old_template_schema ← lift (load_template
                                (Application.manifest application));
  lift (validate_inputs (Application.manifest application) inputs) ;;
  lift (check_user_inputs old_template_schema
          (Application.user_inputs application) inputs) ;;
  new_manifes ← lift (render_template
                        (TemplateRevision.template
                           (Application.template application))
                        inputs);
  new_template_schema ← lift (load_template new_manifes);
  let absent_release_names :=
    dict_keys (TemplateSchema.chart_mapping old_template_schema)
    ∖ dict_keys (TemplateSchema.chart_mapping new_template_schema) in
  (* The exception is built and dropped: there is no [raise]. *)
  let _ :=
    if decide (absent_release_names ≠ ∅) then
      Some (CommonException
              (absent_releases_message (set_iter absent_release_names))
              HTTP_400_BAD_REQUEST)
    else None in
  update_results ← update_releases application dry_run
                     (TemplateSchema.chart_mapping new_template_schema) ∅;
  (if negb dry_run then
     db_save (Application.set_manifest new_manifes application)
   else mret ()) ;;
  mret update_results.

(** *** terminate *)

Definition terminate_message (chart : Chart.t value)
    (application : Application.t value) : string :=
  "Failed to remove release " +:+ dquote +:+ Chart.name chart +:+ dquote
  +:+ " during application termination. <Organization: id="
  +:+ pretty (Organization.id (Application.organization application))
  +:+ "> <Template: id="
  +:+ pretty (TemplateRevision.id (Application.template application))
  +:+ ">".

Definition terminate (application : Application.t value) : M unit :=
  manifest_schema ← lift (load_template (Application.manifest application));
  for_each (TemplateSchema.charts manifest_schema) (λ chart,
    try_except_HelmException
      (await (application_uninstall_call application None chart) ;; mret ())
      (λ _, logging_exception (terminate_message chart application))) ;;
  db_delete (Application.id application).

(** *** Vocabulary of the properties *)

(** The events a run appended to the trace of its start state. *)
Definition new_events (st st' : State value W)
  : list (HelmCall value * option exn) :=
  drop (length (trace st)) (trace st').

(** The release names that the uninstall calls among some events were
    addressed to, in the order of the calls. *)
Definition uninstalled_release_names
    (events : list (HelmCall value * option exn)) : list string :=
  (λ ev, call_release_name ev.1)
  <$> filter (λ ev : HelmCall value * option exn, is_uninstall ev.1) events.

(** The chart backend fails with [HelmException] only. *)
Definition helm_raises_only_HelmException : Prop :=
  ∀ call w e, (helm_manager call w).1 = inl e → is_HelmException e = true.

(** An input violates immutability when both dictionaries hold a value
    for it and Python's [!=] tells the two apart. *)
Definition input_changed (stored inputs : gmap string value)
    (input_name : string) : bool :=
  match inputs !! input_name, stored !! input_name with
  | Some new_value, Some old_value => value_ne new_value old_value
  | _, _ => false
  end.

(** The messages logged for the items whose call raised. *)
Definition failed_messages {A} (message : A → string) (l : list A)
    (outcomes : list (option exn)) : list string :=
  omap (λ xo, match xo.2 with
              | Some _ => Some (message xo.1)
              | None => None
              end) (zip l outcomes).
End Orchestrator.

Arguments helm_raises_only_HelmException {value R W} collaborators.

(** ** Concrete collaborators

    A small instance of the interfaces, used to run the orchestrator on the
    scenarios of the specification: input values and chart results are
    strings, the backend counts its calls, manifests are looked up in a
    table and rendering returns the template text as it is. *)

Definition ex_chart (name : string) : Chart.t string :=
  {| Chart.name := name; Chart.chart := "repo/" +:+ name;
     Chart.version := "1.0.0"; Chart.values := "{}" |}.

Definition ex_schema (charts : list string) (inputs : list (Input.t string))
  : TemplateSchema.t string :=
  {| TemplateSchema.name := "shop";
     TemplateSchema.inputs := inputs;
     TemplateSchema.charts := ex_chart <$> charts;
     TemplateSchema.chart_mapping := (λ n, (n, ex_chart n)) <$> charts;
     TemplateSchema.inputs_mapping := (λ i, (Input.name i, i)) <$> inputs |}.

Definition ex_inputs : list (Input.t string) :=
  [ {| Input.name := "region"; Input.default := None;
       Input.immutable := true |};
    {| Input.name := "replicas"; Input.default := Some "1";
       Input.immutable := false |};
    {| Input.name := "zone"; Input.default := Some "a";
       Input.immutable := true |} ].

Definition ex_load_template (manifest : string)
  : exn + TemplateSchema.t string :=
  if String.eqb manifest "frontend,backend" then
    inr (ex_schema ["frontend"; "backend"] ex_inputs)
  else if String.eqb manifest "A,B" then inr (ex_schema ["A"; "B"] ex_inputs)
  else if String.eqb manifest "B,C" then inr (ex_schema ["B"; "C"] ex_inputs)
  else if String.eqb manifest "web,db,cache" then
    inr (ex_schema ["web"; "db"; "cache"] ex_inputs)
  else inl (OtherException "ManifestParseError").

(** The backend fails, with a [HelmException], on exactly the calls that
    [failing] selects. *)
Definition ex_helm_manager (failing : HelmCall string → bool)
    (call : HelmCall string) (calls : nat) : (exn + string) * nat :=
  (if failing call
   then inl (HelmException ("helm failed: " +:+ call_release_name call))
   else inr ("ok: " +:+ call_release_name call),
   S calls).

Definition ex_collaborators (failing : HelmCall string → bool)
  : Collaborators string string nat :=
  {| value_ne := λ a b, negb (String.eqb a b);
     validate_inputs := λ _ _, inr ();
     render_template := λ template _, inr template;
     load_template := ex_load_template;
     helm_manager := ex_helm_manager failing;
     set_iter := elements |}.

Definition ex_organization : Organization.t := {| Organization.id := 7 |}.

Definition ex_user : User.t :=
  {| User.id := "3f2c"; User.organization := ex_organization |}.

Definition ex_template (text : string) : TemplateRevision.t :=
  {| TemplateRevision.id := 11; TemplateRevision.template := text |}.

Definition ex_user_inputs : gmap string string :=
  {[ "region" := "us-east"; "replicas" := "2"; "zone" := "b" ]}.

(** Inputs that lack [zone], which has a default. *)
Definition ex_partial_inputs : gmap string string :=
  {[ "region" := "us-east"; "replicas" := "2" ]}.

(** New inputs that change the immutable [region] and [zone]. *)
Definition ex_changed_inputs : gmap string string :=
  {[ "region" := "us-west"; "replicas" := "3"; "zone" := "c" ]}.

(** New inputs that change the mutable [replicas] only. *)
Definition ex_new_inputs : gmap string string :=
  {[ "region" := "us-east"; "replicas" := "3"; "zone" := "b" ]}.

(** New inputs with another key set. *)
Definition ex_short_inputs : gmap string string :=
  {[ "region" := "us-east" ]}.

Definition ex_application (manifest template : string)
  : Application.t string :=
  {| Application.id := 1; Application.name := "shop";
     Application.description := EmptyString;
     Application.manifest := manifest; Application.status := running;
     Application.context_name := "prod"; Application.namespace := "default";
     Application.user_inputs := ex_user_inputs;
     Application.template := ex_template template;
     Application.creator_id := "3f2c";
     Application.organization := ex_organization |}.

Definition ex_store (manifest template : string) : Store string :=
  {| records := {[ 1%Z := ex_application manifest template ]};
     next_id := 2 |}.

Definition ex_state (store : Store string) : State string nat :=
  {| helm := 0; trace := []; logs := []; db := store |}.

Definition ex_empty_store : Store string := {| records := ∅; next_id := 1 |}.

Definition fails_install_of (name : string) (call : HelmCall string) : bool :=
  is_install call && String.eqb (call_release_name call) name.

Definition fails_update_of (name : string) (call : HelmCall string) : bool :=
  is_update call && String.eqb (call_release_name call) name.

Definition fails_uninstall_of (name : string) (call : HelmCall string)
  : bool :=
  is_uninstall call && String.eqb (call_release_name call) name.

Definition never_fails (call : HelmCall string) : bool := false.


(** ** Authorization ([core/authentication.py]) *)

Definition HTTP_401_UNAUTHORIZED : Z := 401.
Definition HTTP_403_FORBIDDEN : Z := 403.

(** What decoding a token raises: [jwt.ExpiredSignatureError], the one
    error that [authorize] handles, or any other [jwt.PyJWTError]. *)
Inductive PyJWTError :=
| ExpiredSignatureError
| OtherPyJWTError (description : string).

(** The role constants ([constants.roles]) and the decoding of a token
    with the secret of the settings are used through their interfaces;
    the decoded payload is a dictionary of strings. *)
Class Authentication := {
  Roles_admin : string;
  Roles_operator : string;
  extract_token_data : string → PyJWTError + gmap string string
}.

Module Request.
(** [headers] is keyed by the lower-case header name, as
    [request.headers.get] looks names up. *)
Record t := { headers : gmap string string }.
End Request.

(** The role permission classes of the module. [BasePermission] itself is
    left out: its [authorize] is not a class method and cannot be called
    on the class. *)
Inductive Permission :=
| BaseRolePermission
| AdminRolePermission
| OperatorRolePermission.

#[global] Instance Permission_eq_dec : EqDecision Permission.
Proof. solve_decision. Defined.

(** [s[n:]] *)
Fixpoint string_drop (n : nat) (s : string) : string :=
  match n, s with
  | 0, _ => s
  | S n', String _ s' => string_drop n' s'
  | S _, EmptyString => EmptyString
  end.

(** Python's truth value of an optional string: [None] and the empty
    string are false. *)
Definition truthy (s : option string) : option string :=
  match s with
  | Some (String c s') => Some (String c s')
  | _ => None
  end.

Section Authorization.
Context {authentication : Authentication}.

(** [cls.role]: the class attribute of the two concrete classes. On
    [BaseRolePermission] the attribute is the [property] object itself,
    which no role of a token is equal to. *)
Definition role (cls : Permission) : option string :=
  match cls with
  | BaseRolePermission => None
  | AdminRolePermission => Some Roles_admin
  | OperatorRolePermission => Some Roles_operator
  end.

Definition header_absent_message : string :=
  dquote +:+ "Authorization" +:+ dquote +:+ " header is absent in request.".

(** [BaseRolePermission.authorize], a class method. An exception of the
    decoding other than [ExpiredSignatureError] is not handled. *)
Definition authorize (cls : Permission) (request : Request.t) : exn + bool :=
  match truthy (Request.headers request !! "authorization") with
  | None =>
      inl (CommonException header_absent_message HTTP_401_UNAUTHORIZED)
  | Some authorization_header =>
      let token := string_drop 7 authorization_header in
      match extract_token_data token with
      | inl ExpiredSignatureError =>
          inl (CommonException "Expired JWT token." HTTP_401_UNAUTHORIZED)
      | inl (OtherPyJWTError description) =>
          inl (OtherException description)
      | inr token_data =>
          match truthy (token_data !! "user_role") with
          | None =>
              inl (CommonException "Unknown user role."
                     HTTP_401_UNAUTHORIZED)
          | Some user_role => inr (bool_decide (Some user_role = role cls))
          end
      end
  end.

Definition forbidden_message : string :=
  "You do not have permission to access to this functionality. "
  +:+ "Ask organization's administrator grant you permission.".

(** [AuthorizedUser.__init__]: the permissions the object keeps. *)
Definition AuthorizedUser (permissions : list Permission)
  : list Permission :=
  if decide (AdminRolePermission ∈ permissions) then permissions
  else AdminRolePermission :: permissions.

(** The [for ... else] of [AuthorizedUser.__call__]. *)
Fixpoint authorize_any (permissions : list Permission)
    (request : Request.t) : exn + unit :=
  match permissions with
  | [] => inl (CommonException forbidden_message HTTP_403_FORBIDDEN)
  | permission :: permissions' =>
      match authorize permission request with
      | inl e => inl e
      | inr true => inr ()
      | inr false => authorize_any permissions' request
      end
  end.

(** Calling the object that [AuthorizedUser] builds from [permissions]. *)
Definition AuthorizedUser_call (permissions : list Permission)
    (request : Request.t) : exn + unit :=
  authorize_any (AuthorizedUser permissions) request.
End Authorization.

(** ** Helm time stamps ([services/helm/schemas.py]) *)

(** The [str] that [parse_datetime] takes apart is the list of its code
    points. *)
Definition str : Type := list N.

(** The code points of a literal, for texts of ASCII characters. *)
Fixpoint str_of_string (s : string) : str :=
  match s with
  | EmptyString => []
  | String c s' => N_of_ascii c :: str_of_string s'
  end.

(** The characters at which [str.split()] splits, which are the ones
    [str.isspace] holds for: tab to carriage return, the four separators
    [U+001C] to [U+001F], the space, [U+0085], [U+00A0], [U+1680],
    [U+2000] to [U+200A], [U+2028], [U+2029], [U+202F], [U+205F] and
    [U+3000]. *)
Definition py_isspace (c : N) : bool :=
  ((9 <=? c) && (c <=? 13) || (28 <=? c) && (c <=? 32)
   || (c =? 133) || (c =? 160) || (c =? 5760)
   || (8192 <=? c) && (c <=? 8202)
   || (c =? 8232) || (c =? 8233) || (c =? 8239) || (c =? 8287)
   || (c =? 12288))%N.

(** [value.split()]: the maximal runs of characters that are not
    whitespace. [word] is the run being read, if any. *)
Fixpoint split_go (word : option str) (s : str) : list str :=
  match s with
  | [] => option_list word
  | c :: s' =>
      if py_isspace c then option_list word ++ split_go None s'
      else split_go (Some (from_option (λ w, w ++ [c]) [c] word)) s'
  end.

Definition str_split (s : str) : list str := split_go None s.

(** [sep.join(parts)] *)
Fixpoint str_join (sep : str) (parts : list str) : str :=
  match parts with
  | [] => []
  | part :: parts' =>
      match parts' with
      | [] => part
      | _ :: _ => part ++ sep ++ str_join sep parts'
      end
  end.

(** The text [' '] *)
Definition space : str := [32%N].

(** [l[:-1]] *)
Definition drop_last {A} (l : list A) : list A := take (length l - 1) l.

Inductive IndexError := list_index_out_of_range.

(** The text that [parse_datetime] hands to [datetime.strptime]:
    the second part is cut to 15 characters and the last part is dropped.
    [date_parts[1]] raises [IndexError] when there is no second part. *)
Definition fixed_value (value : str) : IndexError + str :=
  let date_parts := str_split value in
  match date_parts !! 1 with
  | None => inl list_index_out_of_range
  | Some time =>
      let date_parts := <[1 := take 15 time]> date_parts in
      inr (str_join space (drop_last date_parts))
  end.

(** [helm_datetime.parse_datetime]. [strptime] stands for
    [datetime.strptime] with the format of the module; the value that
    [replace(tzinfo=...)] builds is dropped, so what is returned is what
    [strptime] returned. *)
Definition parse_datetime {D E : Type} (strptime : str → E + D)
    (value : str) : (IndexError + E) + D :=
  match fixed_value value with
  | inl e => inl (inl e)
  | inr text =>
      match strptime text with
      | inl e => inl (inr e)
      | inr parsed_datetime => inr parsed_datetime
      end
  end.

Definition no_space (s : str) : bool :=
  forallb (λ c, negb (py_isspace c)) s.

(** A part of a time stamp: a text that is not empty and holds no
    whitespace. *)
Definition is_part (s : str) : bool :=
  match s with
  | [] => false
  | _ :: _ => no_space s
  end.

(** ** More concrete collaborators *)

(** A backend that raises [OtherException] on the calls that [breaking]
    selects, [HelmException] on the calls that [failing] selects, and
    returns on the others. *)
Definition ex_helm_manager_with (breaking failing : HelmCall string → bool)
    (call : HelmCall string) (calls : nat) : (exn + string) * nat :=
  (if breaking call
   then inl (OtherException ("connection lost: " +:+ call_release_name call))
   else if failing call
   then inl (HelmException ("helm failed: " +:+ call_release_name call))
   else inr ("ok: " +:+ call_release_name call),
   S calls).

Definition ex_collaborators_with (breaking failing : HelmCall string → bool)
  : Collaborators string string nat :=
  {| value_ne := λ a b, negb (String.eqb a b);
     validate_inputs := λ _ _, inr ();
     render_template := λ template _, inr template;
     load_template := ex_load_template;
     helm_manager := ex_helm_manager_with breaking failing;
     set_iter := elements |}.

(** An application whose stored inputs lack [zone]. *)
Definition ex_partial_application : Application.t string :=
  Application.set_user_inputs ex_partial_inputs (ex_application "A,B" "A,B").

(** Role constants and a table of tokens in place of the decoding. *)
Definition ex_extract_token_data (token : string)
  : PyJWTError + gmap string string :=
  if String.eqb token "admin-token" then
    inr {[ "user_id" := "3f2c"; "user_role" := "admin" ]}
  else if String.eqb token "operator-token" then
    inr {[ "user_id" := "77aa"; "user_role" := "operator" ]}
  else if String.eqb token "viewer-token" then
    inr {[ "user_id" := "90bd"; "user_role" := "viewer" ]}
  else if String.eqb token "anonymous-token" then
    inr {[ "user_id" := "1c1c" ]}
  else if String.eqb token "old-token" then inl ExpiredSignatureError
  else inl (OtherPyJWTError "InvalidSignatureError").

Definition ex_authentication : Authentication :=
  {| Roles_admin := "admin"; Roles_operator := "operator";
     extract_token_data := ex_extract_token_data |}.

Definition ex_request (authorization : string) : Request.t :=
  {| Request.headers := {[ "authorization" := authorization ]} |}.

Definition ex_request_without_header : Request.t :=
  {| Request.headers := {[ "accept" := "application/json" ]} |}.

Definition ex_partial_store : Store string :=
  {| records := {[ 1%Z := ex_partial_application ]}; next_id := 2 |}.

(** New inputs for [ex_partial_application] that change the immutable
    [region]. *)
Definition ex_partial_changed_inputs : gmap string string :=
  {[ "region" := "us-west"; "replicas" := "3" ]}.

(** Inputs of a template that declares [replicas] three times. *)
Definition ex_repeated_inputs : list (Input.t string) :=
  [ {| Input.name := "replicas"; Input.default := Some "1";
       Input.immutable := false |};
    {| Input.name := "replicas"; Input.default := Some "5";
       Input.immutable := false |};
    {| Input.name := "replicas"; Input.default := None;
       Input.immutable := false |} ].

(** * Properties *)

Section Properties.
Context {value R W : Type} {collaborators : Collaborators value R W}.

Implicit Types (st : State value W) (chart : Chart.t value).

#[local] Arguments install_failed_message : simpl never.
#[local] Arguments install_cleanup_message : simpl never.
#[local] Arguments upgrade_failed_message : simpl never.
#[local] Arguments upgrade_cleanup_message : simpl never.
#[local] Arguments upgrade_remove_message : simpl never.
#[local] Arguments terminate_message : simpl never.

(** ** The monad *)

Lemma bind_inl {A B} (m : M A) (f : A → M B) st e st' :
  m st = (inl e, st') → (m ≫= f) st = (inl e, st').
Proof. unfold mbind, M_bind. by intros ->. Qed.

Lemma bind_inr {A B} (m : M A) (f : A → M B) st a st' :
  m st = (inr a, st') → (m ≫= f) st = f a st'.
Proof. unfold mbind, M_bind. by intros ->. Qed.

Lemma bind_lift {A B} (r : exn + A) (f : A → M B) st a :
  r = inr a → (lift r ≫= f) st = f a st.
Proof. by intros ->. Qed.

Lemma bind_lift_raise {A B} (r : exn + A) (f : A → M B) st e :
  r = inl e → (lift r ≫= f) st = (inl e, st).
Proof. by intros ->. Qed.

(** ** Loops *)

(** A best-effort pass: every item gets its call, a [HelmException] is
    logged (when [logged]) and the pass goes on. *)
Lemma for_each_sweep {A} (mk : A → HelmCall value) (logged : bool)
    (message : A → string) (l : list A) st :
  helm_raises_only_HelmException collaborators →
  ∃ outcomes st',
    for_each l (λ x,
      try_except_HelmException (await (mk x) ;; mret ())
        (λ _, if logged then logging_exception (message x) else mret ()))
      st = (inr (), st')
    ∧ length outcomes = length l
    ∧ trace st' = trace st ++ zip (mk <$> l) outcomes
    ∧ logs st' = logs st
                 ++ (if logged then failed_messages message l outcomes
                     else [])
    ∧ db st' = db st.
Proof.
  intros Hhelm. revert st.
  induction l as [|x l IH]; intros st.
  - exists [], st. destruct logged; simpl; rewrite ?app_nil_r; done.
  - simpl. unfold mbind, M_bind, try_except_HelmException, await.
    destruct (helm_manager (mk x) (helm st)) as [[e|r] w] eqn:Hcall.
    + pose proof (Hhelm (mk x) (helm st) e) as He.
      rewrite Hcall in He. specialize (He eq_refl).
      destruct e as [m| | | |]; try discriminate He. simpl.
      destruct logged; simpl;
        (edestruct IH as (outcomes & st' & -> & Hlen & Htr & Hlog & Hdb);
         exists (Some (HelmException m) :: outcomes), st';
         split; [done|]; simpl in *; rewrite Hlen, Htr, Hlog, Hdb;
         rewrite <- ?app_assoc; done).
    + simpl.
      edestruct IH as (outcomes & st' & -> & Hlen & Htr & Hlog & Hdb).
      exists (None :: outcomes), st'.
      split; [done|]. simpl in *. rewrite Hlen, Htr, Hlog, Hdb.
      rewrite <- ?app_assoc. destruct logged; done.
Qed.

Lemma enumerate_lookup {A} (l : list A) j i x :
  enumerate l !! j = Some (i, x) → i = j ∧ l !! j = Some x.
Proof.
  unfold enumerate. intros H.
  apply lookup_zip_with_Some in H as (i' & x' & [= -> ->] & Hi & Hx).
  apply lookup_seq in Hi as [-> _]. done.
Qed.

Lemma enumerate_take {A B} (f : A → B) (l : list A) j :
  (λ ic : nat * A, f ic.2) <$> take j (enumerate l) = f <$> take j l.
Proof.
  rewrite <- (snd_zip (seq 0 (length l)) l) at 2
    by (by rewrite length_seq).
  fold (enumerate l). rewrite <- fmap_take, <- list_fmap_compose. done.
Qed.

Lemma enumerate_all {A B} (f : A → B) (l : list A) :
  (λ ic : nat * A, f ic.2) <$> enumerate l = f <$> l.
Proof.
  rewrite <- (firstn_all (enumerate l)), enumerate_take.
  unfold enumerate. rewrite length_zip_with, length_seq, Nat.min_id.
  by rewrite firstn_all.
Qed.

(** The install loop of [install]: calls are issued in list order and the
    loop stops at the first one that raises. *)
Lemma install_charts_run context_name namespace user dry_run
    (todo : list (nat * Chart.t value)) results st :
  let call := install_call context_name namespace user dry_run in
  match install_charts context_name namespace user dry_run todo results st
  with
  | (inr _, st') =>
      trace st' = trace st ++ ((λ ic, (call ic.2, None)) <$> todo)
      ∧ logs st' = logs st ∧ db st' = db st
  | (inl (e, index, chart), st') =>
      ∃ j, todo !! j = Some (index, chart)
           ∧ trace st' = trace st
                         ++ ((λ ic, (call ic.2, None)) <$> take j todo)
                         ++ [(call chart, Some e)]
           ∧ logs st' = logs st ∧ db st' = db st
  end.
Proof.
  intros call. revert results st.
  induction todo as [|[index chart] todo IH]; intros results st; simpl.
  - by rewrite app_nil_r.
  - unfold await. fold call.
    destruct (helm_manager (call chart) (helm st)) as [[e|r] w] eqn:Hcall.
    + exists 0. simpl. done.
    + specialize (IH (<[Chart.name chart := r]> results)
                    {| helm := w;
                       trace := trace st ++ [(call chart, None)];
                       logs := logs st; db := db st |}).
      destruct install_charts as [[[[e index'] chart']|results'] st'].
      * destruct IH as (j & Hj & Htr & Hlog & Hdb).
        exists (S j). simpl in *. rewrite Htr, <- !app_assoc. done.
      * destruct IH as (Htr & Hlog & Hdb).
        simpl in *. rewrite Htr, <- !app_assoc. done.
Qed.

Lemma new_events_app st st' events :
  trace st' = trace st ++ events → new_events st st' = events.
Proof. unfold new_events. intros ->. by rewrite drop_app_length. Qed.

Lemma new_events_refl st : new_events st st = [].
Proof. unfold new_events. by rewrite drop_all. Qed.

Lemma filter_events_all (P : HelmCall value → bool) {A}
    (mk : A → HelmCall value) (o : option exn) (l : list A) :
  (∀ x, P (mk x) = true) →
  filter (λ ev : HelmCall value * option exn, P ev.1)
    ((λ x, (mk x, o)) <$> l) = (λ x, (mk x, o)) <$> l.
Proof.
  intros HP. induction l as [|x l IH]; [done|]. rewrite fmap_cons.
  rewrite filter_cons_True by (simpl; by rewrite HP). by rewrite IH.
Qed.

Lemma filter_events_skip (P : HelmCall value → bool) {A}
    (mk : A → HelmCall value) (o : option exn) (l : list A) :
  (∀ x, P (mk x) = false) →
  filter (λ ev : HelmCall value * option exn, P ev.1)
    ((λ x, (mk x, o)) <$> l) = [].
Proof.
  intros HP. induction l as [|x l IH]; [done|]. rewrite fmap_cons.
  rewrite filter_cons_False; [done|]. simpl. rewrite HP. intros [].
Qed.

Lemma filter_events_none (P : HelmCall value → bool) {A}
    (mk : A → HelmCall value) (l : list A) (outcomes : list (option exn)) :
  (∀ x, P (mk x) = false) →
  filter (λ ev : HelmCall value * option exn, P ev.1)
    (zip (mk <$> l) outcomes) = [].
Proof.
  intros HP. revert outcomes.
  induction l as [|x l IH]; intros [|o outcomes]; try done.
  change (zip (mk <$> x :: l) (o :: outcomes))
    with ((mk x, o) :: zip (mk <$> l) outcomes).
  rewrite filter_cons_False; [apply IH|]. simpl. rewrite HP. intros [].
Qed.

Lemma uninstalled_release_names_app
    (events events' : list (HelmCall value * option exn)) :
  uninstalled_release_names (events ++ events')
  = uninstalled_release_names events ++ uninstalled_release_names events'.
Proof. unfold uninstalled_release_names. by rewrite filter_app, fmap_app. Qed.

Lemma uninstalled_release_names_cons (call : HelmCall value)
    (o : option exn) (events : list (HelmCall value * option exn)) :
  uninstalled_release_names ((call, o) :: events)
  = (if is_uninstall call then [call_release_name call] else [])
    ++ uninstalled_release_names events.
Proof.
  unfold uninstalled_release_names.
  destruct (is_uninstall call) eqn:Hcall.
  - by rewrite filter_cons_True by (simpl; by rewrite Hcall).
  - by rewrite filter_cons_False by (simpl; rewrite Hcall; intros []).
Qed.

Lemma uninstalled_release_names_skip {A} (mk : A → HelmCall value)
    (o : option exn) (l : list A) :
  (∀ x, is_uninstall (mk x) = false) →
  uninstalled_release_names ((λ x, (mk x, o)) <$> l) = [].
Proof.
  intros Hmk. unfold uninstalled_release_names.
  by rewrite (filter_events_skip is_uninstall).
Qed.

(** A pass of uninstall calls over some charts addresses the releases of
    those charts, one call each. *)
Lemma uninstalled_release_names_zip {A} (mk : A → HelmCall value)
    (name : A → string) (l : list A) (outcomes : list (option exn)) :
  (∀ x, is_uninstall (mk x) = true) →
  (∀ x, call_release_name (mk x) = name x) →
  length outcomes = length l →
  uninstalled_release_names (zip (mk <$> l) outcomes) = name <$> l.
Proof.
  intros Hmk Hname. unfold uninstalled_release_names. revert outcomes.
  induction l as [|x l IH]; intros [|o outcomes] Hlen; try done.
  change (zip (mk <$> x :: l) (o :: outcomes))
    with ((mk x, o) :: zip (mk <$> l) outcomes).
  rewrite filter_cons_True by (simpl; by rewrite Hmk).
  rewrite !fmap_cons. simpl. rewrite Hname. f_equal. apply IH.
  simpl in Hlen. lia.
Qed.

(** In a list of successful installs followed by one failed call, only the
    last position holds a failure. *)
Lemma lookup_first_failure {A} (mk : A → HelmCall value) (l : list A)
    (last : HelmCall value) (e e' : exn) i c :
  (((λ x, (mk x, None)) <$> l) ++ [(last, Some e)]) !! i = Some (c, Some e') →
  i = length l ∧ c = last ∧ e' = e.
Proof.
  intros H. apply lookup_app_Some in H as [H|[Hi H]].
  - rewrite list_lookup_fmap in H.
    destruct (l !! i); simpl in H; discriminate H || done.
  - rewrite length_fmap in Hi, H.
    destruct (i - length l) as [|n] eqn:Hn; simpl in H; [|done].
    injection H as <- <-. split; [lia|done].
Qed.

Ltac run_pure :=
  unfold mbind, M_bind, lift; simpl;
  repeat match goal with
    | |- context [validate_inputs ?t ?i] =>
        destruct (validate_inputs t i) as [?e|[]] eqn:?Hvalidate; simpl
    | |- context [render_template ?t ?i] =>
        destruct (render_template t i) as [?e|?manifest] eqn:?Hrender; simpl
    | |- context [load_template ?t] =>
        destruct (load_template t) as [?e|?schema] eqn:?Hload; simpl
    end.

(** ** install *)

Lemma install_rollback_run context_name namespace user template
    (installed : list (Chart.t value)) st :
  helm_raises_only_HelmException collaborators →
  ∃ outcomes st',
    install_rollback context_name namespace user template installed st
    = (inr (), st')
    ∧ length outcomes = length installed
    ∧ trace st'
      = trace st
        ++ zip (install_rollback_call context_name namespace user
                  <$> reverse installed) outcomes
    ∧ logs st'
      = logs st
        ++ failed_messages (λ c, install_cleanup_message c user template)
             (reverse installed) outcomes
    ∧ db st' = db st.
Proof.
  intros Hhelm.
  destruct (for_each_sweep
              (install_rollback_call context_name namespace user) true
              (λ c, install_cleanup_message c user template)
              (reverse installed) st Hhelm)
    as (outcomes & st' & Hrun & Hlen & Htr & Hlog & Hdb).
  exists outcomes, st'. rewrite length_reverse in Hlen. done.
Qed.

(** C1. When a non-dry-run [install] meets a [HelmException] on its k-th
    install call, the k-1 charts installed before it, and no others, get an
    uninstall call, latest first; a failing uninstall is logged and the
    rollback goes on; the install's exception is raised once the rollback
    is over; the store is left as it was. The calls are spelled out: each
    uninstall call is addressed to the release named after its chart, in
    the organization of the user, the context and the namespace of the
    installation, and the release names of the uninstall calls are the
    names of the first k-1 charts, reversed. *)
Theorem install_failure_rolls_back_in_reverse
    context_name namespace user template inputs st k failing m :
  helm_raises_only_HelmException collaborators →
  1 ≤ k →
  let run := install context_name namespace user template inputs false st in
  filter (λ ev : HelmCall value * option exn, is_install ev.1)
    (new_events st run.2) !! (k - 1)
  = Some (failing, Some (HelmException m)) →
  ∃ manifest manifest_schema chart outcomes,
    let charts := TemplateSchema.charts manifest_schema in
    let installed := take (k - 1) charts in
    let organization := User.organization user in
    render_template (TemplateRevision.template template) inputs
    = inr manifest
    ∧ load_template manifest = inr manifest_schema
    ∧ charts !! (k - 1) = Some chart
    ∧ failing
      = install_chart organization context_name namespace
          (Chart.name chart) (Chart.chart chart) (Chart.version chart)
          (Chart.values chart) false
    ∧ length outcomes = k - 1
    ∧ trace run.2
      = trace st
        ++ ((λ c, (install_chart organization context_name namespace
                     (Chart.name c) (Chart.chart c) (Chart.version c)
                     (Chart.values c) false, None))
              <$> installed)
        ++ [(failing, Some (HelmException m))]
        ++ zip ((λ c, uninstall_release organization context_name
                        namespace (Chart.name c) None)
                  <$> reverse installed) outcomes
    ∧ uninstalled_release_names (new_events st run.2)
      = reverse (Chart.name <$> installed)
    ∧ logs run.2
      = logs st
        ++ install_failed_message chart user template
           :: failed_messages
                (λ c, install_cleanup_message c user template)
                (reverse installed) outcomes
    ∧ run.1 = inl (HelmException m)
    ∧ db run.2 = db st.
Proof.
  intros Hhelm Hk run. subst run. unfold install.
  run_pure; try (rewrite new_events_refl; done).
  pose proof (install_charts_run context_name namespace user false
                (enumerate (TemplateSchema.charts schema)) ∅ st) as Hrun.
  simpl in Hrun.
  destruct install_charts as [[[[e index] chart]|results] st1].
  - destruct Hrun as (j & Hj & Htr & Hlog & Hdb).
    apply enumerate_lookup in Hj as [-> Hj].
    rewrite (enumerate_take
               (λ c, (install_call context_name namespace user false c,
                      None))) in Htr.
    pose proof (lookup_lt_Some _ _ _ Hj) as Hlt.
    destruct e as [m'| | | |]; simpl.
    2-5: intros Hev; exfalso.
    2-5: rewrite (new_events_app _ _ _ Htr) in Hev.
    2-5: rewrite filter_app, filter_events_all in Hev by done.
    2-5: rewrite filter_cons_True, filter_nil in Hev by done.
    2-5: by apply lookup_first_failure in Hev as (_ & _ & ?).
    destruct (install_rollback_run context_name namespace user template
                (take j (TemplateSchema.charts schema))
                {| helm := helm st1; trace := trace st1;
                   logs := logs st1
                           ++ [install_failed_message chart user template];
                   db := db st1 |} Hhelm)
      as (outcomes & st' & -> & Hlen & Htr' & Hlog' & Hdb').
    simpl in *. rewrite Htr, <- !app_assoc in Htr'.
    rewrite (new_events_app _ _ _ Htr').
    rewrite !filter_app, filter_events_all by done.
    rewrite filter_cons_True, filter_nil by done.
    rewrite filter_events_none, app_nil_r by done.
    intros Hev. apply lookup_first_failure in Hev as (Hkj & -> & [= ->]).
    rewrite length_take_le in Hkj by lia. rewrite Hkj.
    exists manifest, schema, chart, outcomes.
    rewrite Hlog', Hlog, Hdb', Hdb, <- app_assoc.
    rewrite length_take_le in Hlen by lia.
    repeat split; try done.
    rewrite !uninstalled_release_names_app.
    rewrite (uninstalled_release_names_skip
               (install_call context_name namespace user false)) by done.
    rewrite <- fmap_reverse.
    rewrite (uninstalled_release_names_zip
               (install_rollback_call context_name namespace user)
               Chart.name) by (by rewrite ?length_reverse, ?length_take_le by lia).
    done.
  - destruct Hrun as (Htr & Hlog & Hdb). simpl.
    rewrite (enumerate_all
               (λ c, (install_call context_name namespace user false c,
                      None))) in Htr.
    unfold new_events, db_create. simpl. rewrite Htr, drop_app_length.
    rewrite filter_events_all, list_lookup_fmap by done.
    destruct (_ !! _); simpl; intros [=].
Qed.

(** C3 (as the code has it). A dry-run [install] does not compensate:
    when its k-th install call raises a [HelmException], the calls issued
    are the k install calls and nothing else, so no chart gets an uninstall
    call; nothing is logged, the store is left as it was, and the
    exception is raised. *)
Theorem install_dry_run_failure_is_not_rolled_back
    context_name namespace user template inputs st k failing m :
  1 ≤ k →
  let run := install context_name namespace user template inputs true st in
  filter (λ ev : HelmCall value * option exn, is_install ev.1)
    (new_events st run.2) !! (k - 1)
  = Some (failing, Some (HelmException m)) →
  ∃ manifest manifest_schema chart,
    let charts := TemplateSchema.charts manifest_schema in
    render_template (TemplateRevision.template template) inputs
    = inr manifest
    ∧ load_template manifest = inr manifest_schema
    ∧ charts !! (k - 1) = Some chart
    ∧ failing = install_call context_name namespace user true chart
    ∧ trace run.2
      = trace st
        ++ ((λ c, (install_call context_name namespace user true c, None))
              <$> take (k - 1) charts)
        ++ [(failing, Some (HelmException m))]
    ∧ filter (λ ev : HelmCall value * option exn, is_uninstall ev.1)
        (new_events st run.2) = []
    ∧ logs run.2 = logs st
    ∧ run.1 = inl (HelmException m)
    ∧ db run.2 = db st.
Proof.
  intros Hk run. subst run. unfold install.
  run_pure; try (rewrite new_events_refl; done).
  pose proof (install_charts_run context_name namespace user true
                (enumerate (TemplateSchema.charts schema)) ∅ st) as Hrun.
  simpl in Hrun.
  destruct install_charts as [[[[e index] chart]|results] st1].
  - destruct Hrun as (j & Hj & Htr & Hlog & Hdb).
    apply enumerate_lookup in Hj as [-> Hj].
    rewrite (enumerate_take
               (λ c, (install_call context_name namespace user true c,
                      None))) in Htr.
    pose proof (lookup_lt_Some _ _ _ Hj) as Hlt.
    assert (new_events st st1
            = ((λ c, (install_call context_name namespace user true c,
                      None)) <$> take j (TemplateSchema.charts schema))
              ++ [(install_call context_name namespace user true chart,
                   Some e)]) as Hnew by by apply new_events_app.
    assert (filter (λ ev : HelmCall value * option exn, is_uninstall ev.1)
              (new_events st st1) = []) as Hnone.
    { rewrite Hnew, filter_app, filter_events_skip by done.
      by rewrite filter_cons_False by (intros []). }
    destruct e; simpl; intros Hev.
    all: rewrite Hnew in Hev.
    all: rewrite filter_app, filter_events_all in Hev by done.
    all: rewrite filter_cons_True, filter_nil in Hev by done.
    all: apply lookup_first_failure in Hev as (Hkj & -> & Heq).
    all: try discriminate Heq. injection Heq as <-.
    rewrite length_take_le in Hkj by lia. rewrite Hkj.
    exists manifest, schema, chart. done.
  - destruct Hrun as (Htr & Hlog & Hdb). simpl.
    rewrite (enumerate_all
               (λ c, (install_call context_name namespace user true c,
                      None))) in Htr.
    unfold new_events. simpl. rewrite Htr, drop_app_length.
    rewrite filter_events_all, list_lookup_fmap by done.
    destruct (_ !! _); simpl; intros [=].
Qed.

(** ** terminate *)

(** C9. [terminate] issues one uninstall call per chart of the stored
    manifest, in manifest order; a call that fails is logged and the pass
    goes on; then the record is deleted, whatever the calls did. The calls
    are spelled out: the i-th call is addressed to the release named after
    the i-th chart, in the organization, the context and the namespace of
    the application, and no other call is issued. *)
Theorem terminate_uninstalls_all_then_deletes application manifest_schema st :
  helm_raises_only_HelmException collaborators →
  load_template (Application.manifest application) = inr manifest_schema →
  let charts := TemplateSchema.charts manifest_schema in
  let run := terminate application st in
  ∃ outcomes,
    length outcomes = length charts
    ∧ run.1 = inr ()
    ∧ trace run.2
      = trace st
        ++ zip ((λ c, uninstall_release
                        (Application.organization application)
                        (Application.context_name application)
                        (Application.namespace application)
                        (Chart.name c) None) <$> charts)
             outcomes
    ∧ length (new_events st run.2) = length charts
    ∧ uninstalled_release_names (new_events st run.2) = Chart.name <$> charts
    ∧ logs run.2
      = logs st
        ++ failed_messages (λ c, terminate_message c application) charts
             outcomes
    ∧ records (db run.2)
      = delete (Application.id application) (records (db st))
    ∧ records (db run.2) !! Application.id application = None.
Proof.
  intros Hhelm Hload charts run. subst run charts.
  destruct (for_each_sweep (application_uninstall_call application None)
              true (λ c, terminate_message c application)
              (TemplateSchema.charts manifest_schema) st Hhelm)
    as (outcomes & st' & Hrun & Hlen & Htr & Hlog & Hdb).
  assert (terminate application st
          = db_delete (Application.id application) st') as ->.
  { unfold terminate. rewrite (bind_lift _ _ _ _ Hload).
    exact (bind_inr _ (λ _, db_delete (Application.id application))
             _ _ _ Hrun). }
  rewrite (new_events_app st
             (db_delete (Application.id application) st').2 _ Htr).
  simpl. exists outcomes. rewrite Hdb, lookup_delete_eq.
  rewrite (uninstalled_release_names_zip
             (application_uninstall_call application None) Chart.name)
    by done.
  rewrite length_zip, length_fmap, Hlen, Nat.min_id. done.
Qed.

(** ** upgrade: the diff set and the merged inputs *)


(** C4. The three sets of [upgrade] are the two differences and the
    intersection of the key sets of the old and the new chart mapping;
    no release name is in two of them and together they are the union of
    the two key sets. *)
Theorem upgrade_diff_set_partition
    (old_template_schema new_template_schema : TemplateSchema.t value) :
  let A := dict_keys (TemplateSchema.chart_mapping old_template_schema) in
  let B := dict_keys (TemplateSchema.chart_mapping new_template_schema) in
  let to_install :=
    charts_to_install old_template_schema new_template_schema in
  let to_remove :=
    releases_to_remove old_template_schema new_template_schema in
  let to_update :=
    releases_to_update old_template_schema new_template_schema in
  (to_install = B ∖ A ∧ to_remove = A ∖ B ∧ to_update = A ∩ B)
  ∧ (∀ name, name ∈ to_install ↔ name ∈ B ∧ name ∉ A)
  ∧ (∀ name, name ∈ to_remove ↔ name ∈ A ∧ name ∉ B)
  ∧ (∀ name, name ∈ to_update ↔ name ∈ A ∧ name ∈ B)
  ∧ (to_install ## to_remove ∧ to_install ## to_update
     ∧ to_remove ## to_update)
  ∧ to_install ∪ to_remove ∪ to_update = A ∪ B.
Proof.
  cbv zeta.
  unfold charts_to_install, releases_to_remove, releases_to_update.
  generalize
    (dict_keys (TemplateSchema.chart_mapping new_template_schema)).
  generalize
    (dict_keys (TemplateSchema.chart_mapping old_template_schema)).
  intros A B.
  split; [done|].
  split; [intros name; rewrite elem_of_difference; tauto|].
  split; [intros name; rewrite elem_of_difference; tauto|].
  split; [intros name; rewrite elem_of_intersection; tauto|].
  split.
  - rewrite !elem_of_disjoint. repeat split; intros name.
    all: rewrite ?elem_of_difference, ?elem_of_intersection; tauto.
  - apply set_eq. intros name.
    rewrite !elem_of_union, !elem_of_difference, elem_of_intersection.
    destruct (decide (name ∈ A)), (decide (name ∈ B)); tauto.
Qed.

Lemma input_defaults_snoc (inputs : list (Input.t value)) input :
  input_defaults (inputs ++ [input])
  = match Input.default input with
    | Some d => <[Input.name input := d]> (input_defaults inputs)
    | None => input_defaults inputs
    end.
Proof. unfold input_defaults. by rewrite foldl_app. Qed.

(** The defaults of a schema whose inputs have distinct names. *)
Lemma input_defaults_lookup (inputs : list (Input.t value)) name d :
  NoDup (Input.name <$> inputs) →
  input_defaults inputs !! name = Some d
  ↔ ∃ input, input ∈ inputs ∧ Input.name input = name
             ∧ Input.default input = Some d.
Proof.
  induction inputs as [|input inputs IH] using rev_ind; intros Hnodup.
  - unfold input_defaults. simpl. rewrite lookup_empty.
    split; [done|]. intros (? & []%elem_of_nil & _).
  - rewrite fmap_app in Hnodup. apply NoDup_app in Hnodup as (Hl & Hnot & _).
    rewrite input_defaults_snoc.
    assert (Input.name input = name →
            ∀ input', input' ∈ inputs → Input.name input' ≠ name) as Hfresh.
    { intros <- input' Hin Heq. apply (Hnot (Input.name input')).
      - apply list_elem_of_fmap. eauto.
      - rewrite Heq. apply list_elem_of_here. }
    setoid_rewrite elem_of_app. setoid_rewrite list_elem_of_singleton.
    destruct (Input.default input) as [d'|] eqn:Hd.
    + destruct (decide (Input.name input = name)) as [Heq|Hne].
      * rewrite Heq, lookup_insert_eq. split.
        -- intros [= ->]. exists input. eauto.
        -- intros (input' & [Hin| ->] & Hname & Hdef).
           ++ by destruct (Hfresh Heq input' Hin).
           ++ congruence.
      * rewrite lookup_insert_ne by done. rewrite (IH Hl). split.
        -- intros (input' & ? & ? & ?). exists input'. eauto.
        -- intros (input' & [Hin| ->] & Hname & Hdef); [eauto|done].
    + rewrite (IH Hl). split.
      * intros (input' & ? & ? & ?). exists input'. eauto.
      * intros (input' & [Hin| ->] & Hname & Hdef); [eauto|congruence].
Qed.

(** C5. In the input map that [upgrade] renders the new template with, a
    name that has a default in the new template and a value in the
    application's inputs keeps the application's value; a name that has
    only the default gets the default. The merged map is the one given to
    [render_template]: what rendering it raises, [upgrade] raises. *)
Theorem upgrade_merge_precedence new_template_schema application name :
  let defaults :=
    input_defaults (TemplateSchema.inputs new_template_schema) in
  let merged := upgrade_user_inputs new_template_schema application in
  (∀ d v, defaults !! name = Some d →
          Application.user_inputs application !! name = Some v →
          merged !! name = Some v)
  ∧ (∀ d, defaults !! name = Some d →
          Application.user_inputs application !! name = None →
          merged !! name = Some d)
  ∧ (∀ template dry_run st e,
       load_template (TemplateRevision.template template)
       = inr new_template_schema →
       render_template (TemplateRevision.template template) merged
       = inl e →
       upgrade application template dry_run st = (inl e, st)).
Proof.
  intros defaults merged. subst defaults merged.
  unfold upgrade_user_inputs, dict_merge. repeat split.
  - intros d v _ Hv. by apply lookup_union_Some_l.
  - intros d Hd Hnone. rewrite lookup_union_r by done. done.
  - intros template dry_run st e Hload Hrender. unfold upgrade.
    unfold mbind, M_bind, lift. rewrite Hload.
    unfold upgrade_user_inputs, dict_merge. by rewrite Hrender.
Qed.

(** ** update_user_inputs *)

Lemma elem_of_immutable_inputs (old_template_schema : TemplateSchema.t value)
    name :
  name ∈ immutable_inputs old_template_schema
  ↔ ∃ input, (name, input)
               ∈ TemplateSchema.inputs_mapping old_template_schema
             ∧ Input.immutable input = true.
Proof.
  unfold immutable_inputs. rewrite list_elem_of_omap. split.
  - intros ([n input] & Hin & Hsome). simpl in Hsome.
    destruct (Input.immutable input) eqn:Him; [|done].
    injection Hsome as ->. eauto.
  - intros (input & Hin & Him). exists (name, input). simpl.
    by rewrite Him.
Qed.

Lemma collect_violating_inputs_run (inputs stored : gmap string value)
    (todo violating_inputs : list string) :
  (∀ name, name ∈ todo → name ∈ dom inputs ∧ name ∈ dom stored) →
  collect_violating_inputs inputs stored todo violating_inputs
  = inr (violating_inputs
         ++ filter (λ name, input_changed stored inputs name) todo).
Proof.
  revert violating_inputs.
  induction todo as [|name todo IH]; intros violating_inputs Hkeys; simpl.
  - by rewrite app_nil_r.
  - destruct (Hkeys name) as [Hnew Hold]; [apply list_elem_of_here|].
    apply elem_of_dom in Hnew as [new_value Hnew].
    apply elem_of_dom in Hold as [old_value Hold].
    unfold gmap_getitem. rewrite Hnew, Hold.
    rewrite IH by (intros n Hn; apply Hkeys; by apply list_elem_of_further).
    rewrite filter_cons.
    assert (input_changed stored inputs name
            = value_ne new_value old_value) as ->
      by (unfold input_changed; by rewrite Hnew, Hold).
    destruct (value_ne new_value old_value); simpl.
    + by rewrite <- app_assoc.
    + done.
Qed.

Lemma update_user_inputs_rejected application inputs dry_run st
    old_template_schema e :
  load_template (Application.manifest application)
  = inr old_template_schema →
  validate_inputs (Application.manifest application) inputs = inr () →
  check_user_inputs old_template_schema
    (Application.user_inputs application) inputs = inl e →
  update_user_inputs application inputs dry_run st = (inl e, st).
Proof.
  intros Hload Hvalidate Hcheck. unfold update_user_inputs.
  rewrite (bind_lift _ _ _ _ Hload), (bind_lift _ _ _ _ Hvalidate).
  by rewrite (bind_lift_raise _ _ _ _ Hcheck).
Qed.


(** The update loop: calls are issued in the order of the mapping and the
    loop stops at the first one that raises. *)
Lemma update_releases_run application dry_run
    (todo : list (string * Chart.t value)) update_results st :
  let call := λ item : string * Chart.t value,
    application_update_call application dry_run item.1 item.2 in
  match update_releases application dry_run todo update_results st with
  | (inr update_results', st') =>
      trace st' = trace st ++ ((λ item, (call item, None)) <$> todo)
      ∧ dom update_results' = dom update_results ∪ dict_keys todo
      ∧ logs st' = logs st ∧ db st' = db st
  | (inl e, st') =>
      ∃ j item, todo !! j = Some item
                ∧ trace st' = trace st
                              ++ ((λ item, (call item, None))
                                    <$> take j todo)
                              ++ [(call item, Some e)]
                ∧ logs st' = logs st ∧ db st' = db st
  end.
Proof.
  intros call. revert update_results st.
  induction todo as [|[release_name chart] todo IH];
    intros update_results st; simpl.
  - rewrite app_nil_r. unfold dict_keys. simpl.
    by rewrite (right_id_L ∅ (∪)).
  - unfold mbind, M_bind, await.
    change (application_update_call application dry_run release_name chart)
      with (call (release_name, chart)).
    destruct (helm_manager (call (release_name, chart)) (helm st))
      as [[e|r] w] eqn:Hcall.
    + exists 0, (release_name, chart). simpl. done.
    + specialize (IH (<[release_name := r]> update_results)
                    {| helm := w;
                       trace := trace st
                                ++ [(call (release_name, chart), None)];
                       logs := logs st; db := db st |}).
      destruct update_releases as [[e|update_results'] st'].
      * destruct IH as (j & item & Hj & Htr & Hlog & Hdb).
        exists (S j), item. simpl in *. rewrite Htr, <- !app_assoc. done.
      * destruct IH as (Htr & Hdom & Hlog & Hdb).
        simpl in *. rewrite Htr, <- !app_assoc, Hdom, dom_insert_L.
        unfold dict_keys. simpl.
        rewrite (assoc_L (∪)), (comm_L (∪) {[release_name]}). done.
Qed.

(** The checks of [update_user_inputs] where they work. Once the stored
    manifest is parsed and [validate_inputs] has passed,
    [update_user_inputs] raises [InvalidUserInputsException] and leaves
    the state as it found it (no chart call, no write) when the key sets
    of the new and the stored inputs differ; and when the key sets agree,
    every immutable input is among the keys and at least one of them has
    a changed value, it raises one [InvalidUserInputsException] whose
    message joins all the immutable inputs that changed, each of them
    once per entry of the input mapping and in its order, again leaving
    the state as it found it. (An immutable input that is not among the
    keys makes the check raise [KeyError] instead.) *)
Theorem update_user_inputs_validation
    application inputs dry_run st old_template_schema :
  load_template (Application.manifest application)
  = inr old_template_schema →
  validate_inputs (Application.manifest application) inputs = inr () →
  let stored := Application.user_inputs application in
  let immutable := immutable_inputs old_template_schema in
  let run := update_user_inputs application inputs dry_run st in
  (dom inputs ≠ dom stored →
   run = (inl (InvalidUserInputsException keys_not_equal_message), st))
  ∧ (dom inputs = dom stored →
     Forall (λ name, name ∈ dom inputs) immutable →
     Exists (λ name, input_changed stored inputs name = true) immutable →
     ∃ violating_inputs,
       run = (inl (InvalidUserInputsException
                     (immutable_message violating_inputs)), st)
       ∧ violating_inputs
         = filter (λ name, input_changed stored inputs name) immutable
       ∧ ∀ name, name ∈ violating_inputs
                 ↔ name ∈ immutable
                   ∧ input_changed stored inputs name = true).
Proof.
  intros Hload Hvalidate stored immutable run. subst run. split.
  - intros Hkeys. apply (update_user_inputs_rejected _ _ _ _ _ _ Hload);
      [done|].
    unfold check_user_inputs. fold stored. by rewrite decide_True.
  - intros Hkeys Hpresent Hchanged.
    exists (filter (λ name, input_changed stored inputs name) immutable).
    assert (∀ name,
              name ∈ filter (λ name, input_changed stored inputs name)
                       immutable
              ↔ name ∈ immutable
                ∧ input_changed stored inputs name = true) as Hmem.
    { intros name. rewrite list_elem_of_filter, Is_true_true. tauto. }
    split; [|done].
    apply (update_user_inputs_rejected _ _ _ _ _ _ Hload); [done|].
    unfold check_user_inputs. fold stored immutable.
    rewrite decide_False by (by intros []).
    rewrite collect_violating_inputs_run.
    + simpl.
      destruct (filter _ immutable) as [|name violating] eqn:Hfilter;
        [|done].
      apply Exists_exists in Hchanged as (name & Hin & Hname).
      pose proof (proj2 (Hmem name) (conj Hin Hname)) as Hnil.
      by apply elem_of_nil in Hnil.
    + intros name Hin. rewrite Forall_forall in Hpresent.
      split; [by apply Hpresent|]. rewrite <- Hkeys. by apply Hpresent.
Qed.


(** C10. A non-dry-run [update_user_inputs] that returns has saved the
    record with its manifest replaced and nothing else: in particular the
    stored user inputs are the ones from before the call, not [inputs],
    and the template reference is the same. A later [update_user_inputs]
    on the saved record therefore runs its key-set and immutability
    checks against the inputs from before the call: it raises what these
    checks raise on them. *)
Theorem update_user_inputs_persists_manifest_only
    application inputs st update_results st' :
  update_user_inputs application inputs false st
  = (inr update_results, st') →
  ∃ new_manifes,
    let saved := Application.set_manifest new_manifes application in
    render_template
      (TemplateRevision.template (Application.template application))
      inputs = inr new_manifes
    ∧ records (db st')
      = <[Application.id application := saved]> (records (db st))
    ∧ records (db st') !! Application.id application = Some saved
    ∧ Application.manifest saved = new_manifes
    ∧ Application.user_inputs saved = Application.user_inputs application
    ∧ Application.template saved = Application.template application
    ∧ ∀ inputs2 dry_run2 st2 schema2 e,
        load_template new_manifes = inr schema2 →
        validate_inputs new_manifes inputs2 = inr () →
        check_user_inputs schema2 (Application.user_inputs application)
          inputs2 = inl e →
        update_user_inputs saved inputs2 dry_run2 st2 = (inl e, st2).
Proof.
  unfold update_user_inputs at 1. unfold mbind, M_bind, lift.
  destruct (load_template (Application.manifest application))
    as [?|old_template_schema]; [done|].
  destruct (validate_inputs _ _) as [?|[]]; [done|].
  destruct (check_user_inputs _ _ _) as [?|[]]; [done|].
  destruct (render_template _ _) as [?|new_manifes] eqn:Hrender; [done|].
  destruct (load_template new_manifes) as [?|new_template_schema];
    [done|].
  pose proof (update_releases_run application false
                (TemplateSchema.chart_mapping new_template_schema) ∅ st)
    as Hrun.
  simpl in Hrun.
  destruct update_releases as [[?|update_results'] st1]; [done|].
  destruct Hrun as (_ & _ & _ & Hdb). simpl. intros [= <- <-]. simpl.
  exists new_manifes. rewrite Hdb, lookup_insert_eq.
  repeat split.
  intros inputs2 dry_run2 st2 schema2 e Hload2 Hvalidate2 Hcheck2.
  by apply (update_user_inputs_rejected _ _ _ _ schema2).
Qed.

(** ** upgrade: the three phases *)

(** Whatever the passes of a loop append to the trace satisfies what each
    pass guarantees; a loop of passes that leave the store alone leaves
    the store alone. *)
Lemma for_each_events {A} (P : HelmCall value * option exn → Prop)
    (body : A → M unit) (l : list A) :
  (∀ x st, ∃ evs, trace (body x st).2 = trace st ++ evs
                  ∧ db (body x st).2 = db st ∧ Forall P evs
                  ∧ ((body x st).1 = inr () → length evs = 1)) →
  ∀ st, ∃ evs, trace (for_each l body st).2 = trace st ++ evs
               ∧ db (for_each l body st).2 = db st ∧ Forall P evs
               ∧ ((for_each l body st).1 = inr () →
                  length evs = length l).
Proof.
  intros Hbody. induction l as [|x l IH]; intros st; simpl.
  - exists []. by rewrite app_nil_r.
  - unfold mbind, M_bind.
    destruct (Hbody x st) as (evs & Htr & Hdb & HP & Hlen).
    destruct (body x st) as [[e|[]] st1]; simpl in *.
    + exists evs. done.
    + destruct (IH st1) as (evs' & Htr' & Hdb' & HP' & Hlen').
      exists (evs ++ evs'). rewrite Htr', Htr, Hdb', Hdb, <- app_assoc.
      repeat split; [by apply Forall_app|].
      intros Hok. rewrite length_app, Hlen, Hlen' by done. done.
Qed.

(** One guarded uninstall call: a single event, nothing written. *)
Lemma guarded_uninstall_events (call : HelmCall value)
    (handler : exn → M unit) st :
  (∀ e st, trace (handler e st).2 = trace st
           ∧ db (handler e st).2 = db st ∧ (handler e st).1 = inr ()) →
  let run := try_except_HelmException (await call ;; mret ()) handler st in
  ∃ o, trace run.2 = trace st ++ [(call, o)] ∧ db run.2 = db st.
Proof.
  intros Hhandler. simpl.
  unfold try_except_HelmException, mbind, M_bind, await.
  destruct (helm_manager call (helm st)) as [[e|r] w]; simpl.
  - destruct e; simpl; eauto.
    destruct (Hhandler (HelmException message)
                {| helm := w;
                   trace := trace st
                            ++ [(call, Some (HelmException message))];
                   logs := logs st; db := db st |}) as (Htr & Hdb & _).
    simpl in *. eauto.
  - eauto.
Qed.

Lemma logging_exception_quiet message st :
  trace (logging_exception message st).2 = trace st
  ∧ db (logging_exception message st).2 = db st
  ∧ (logging_exception message st).1 = inr ().
Proof. done. Qed.

Lemma upgrade_rollback_events application template installed_charts st :
  let run := upgrade_rollback application template installed_charts st in
  ∃ evs, trace run.2 = trace st ++ evs ∧ db run.2 = db st
         ∧ Forall (λ ev, is_update ev.1 = false) evs.
Proof.
  simpl. unfold upgrade_rollback.
  destruct (for_each_events (λ ev, is_update ev.1 = false)
              (λ chart,
                 try_except_HelmException
                   (await (application_uninstall_call application None
                             chart) ;; mret ())
                   (λ _, logging_exception
                           (upgrade_cleanup_message chart application
                              template)))
              (reverse installed_charts)) with st
    as (evs & Htr & Hdb & HP & _); [|eauto].
  intros chart st0.
  destruct (guarded_uninstall_events
              (application_uninstall_call application None chart)
              (λ _, logging_exception
                      (upgrade_cleanup_message chart application template))
              st0) as (o & Htr & Hdb).
  { intros e st1. by apply logging_exception_quiet. }
  simpl in *. exists [(application_uninstall_call application None chart, o)].
  repeat split; try done. by repeat constructor.
Qed.

(** The install phase: when it returns, it has issued one successful
    install call per release name; when it raises, it has issued install
    and uninstall calls only. It never writes to the store. *)
Lemma upgrade_install_run application template dry_run new_template_schema
    (todo : list string) install_results installed_charts st :
  let call := application_install_call application dry_run in
  match upgrade_install application template dry_run new_template_schema
          todo install_results installed_charts st with
  | (inr _, st') =>
      ∃ charts, length charts = length todo
                ∧ trace st' = trace st ++ ((λ c, (call c, None)) <$> charts)
                ∧ logs st' = logs st ∧ db st' = db st
  | (inl e, st') =>
      ∃ evs, trace st' = trace st ++ evs ∧ db st' = db st
             ∧ Forall (λ ev, is_update ev.1 = false) evs
  end.
Proof.
  intros call. revert install_results installed_charts st.
  induction todo as [|release_name todo IH];
    intros install_results installed_charts st; simpl.
  - exists []. by rewrite app_nil_r.
  - unfold mbind at 1, M_bind at 1, lift.
    destruct (dict_getitem release_name _) as [e|chart].
    { exists []. by rewrite app_nil_r. }
    unfold mbind at 1, M_bind at 1, try_except_HelmException, await.
    fold call.
    destruct (helm_manager (call chart) (helm st)) as [[e|r] w].
    + destruct e as [m| | | |].
      2-5: eexists [_]; simpl; repeat split; by repeat constructor.
      destruct dry_run; simpl.
      { eexists [_]; simpl; repeat split; by repeat constructor. }
      unfold mbind, M_bind. simpl.
      match goal with
      | |- context [upgrade_rollback ?a ?t ?i ?s] =>
          destruct (upgrade_rollback_events a t i s)
            as (evs & Htr & Hdb & HP);
          destruct (upgrade_rollback a t i s) as [[?|[]] st2]
      end.
      all: simpl in *.
      all: exists ((call chart, Some (HelmException m)) :: evs).
      all: rewrite Htr, Hdb, <- app_assoc.
      all: repeat split; by constructor.
    + specialize (IH (<[Chart.name chart := r]> install_results)
                    (installed_charts ++ [chart])
                    {| helm := w; trace := trace st ++ [(call chart, None)];
                       logs := logs st; db := db st |}).
      destruct upgrade_install as [[e|results'] st'].
      * destruct IH as (evs & Htr & Hdb & HP).
        exists ((call chart, None) :: evs). simpl in *.
        rewrite Htr, Hdb, <- app_assoc. repeat split. by constructor.
      * destruct IH as (charts & Hlen & Htr & Hlog & Hdb).
        exists (chart :: charts). simpl in *.
        rewrite Hlen, Htr, Hlog, Hdb, <- app_assoc. done.
Qed.

(** The update phase: when it returns, it has issued one successful
    update call per release name; when it raises, every call but the last
    went through, and the exception is either a [KeyError] of the lookup
    or what the last update call raised. *)
Lemma upgrade_update_run application dry_run new_template_schema
    (todo : list string) update_results st :
  match upgrade_update application dry_run new_template_schema todo
          update_results st with
  | (inr _, st') =>
      ∃ evs, length evs = length todo
             ∧ trace st' = trace st ++ evs
             ∧ Forall (λ ev, ev.2 = None ∧ is_update ev.1 = true
                             ∧ call_dry_run ev.1 = Some dry_run) evs
             ∧ logs st' = logs st ∧ db st' = db st
  | (inl e, st') =>
      ∃ evs last,
        trace st' = trace st ++ evs ++ last
        ∧ Forall (λ ev, ev.2 = None ∧ is_update ev.1 = true) evs
        ∧ (last = [] ∨ ∃ call, is_update call = true
                               ∧ last = [(call, Some e)])
        ∧ logs st' = logs st ∧ db st' = db st
  end.
Proof.
  revert update_results st.
  induction todo as [|release_name todo IH];
    intros update_results st; simpl.
  - exists []. by rewrite app_nil_r.
  - unfold mbind at 1, M_bind at 1, lift.
    destruct (dict_getitem release_name _) as [e|chart].
    { exists [], []. rewrite app_nil_r. repeat split; eauto. }
    unfold mbind at 1, M_bind at 1, await.
    set (call := application_update_call application dry_run release_name
                   chart).
    destruct (helm_manager call (helm st)) as [[e|r] w].
    + exists [], [(call, Some e)]. repeat split; try done.
      right. by exists call.
    + specialize (IH (<[release_name := r]> update_results)
                    {| helm := w; trace := trace st ++ [(call, None)];
                       logs := logs st; db := db st |}).
      destruct upgrade_update as [[e|results'] st'].
      * destruct IH as (evs & last & Htr & HP & Hlast & Hlog & Hdb).
        exists ((call, None) :: evs), last. simpl in *.
        rewrite Htr, Hlog, Hdb, <- app_assoc.
        repeat split; try done. by constructor.
      * destruct IH as (evs & Hlen & Htr & HP & Hlog & Hdb).
        exists ((call, None) :: evs). simpl in *.
        rewrite Hlen, Htr, Hlog, Hdb, <- app_assoc.
        repeat split; try done. by constructor.
Qed.

(** The removal phase issues uninstall calls only, each with the
    [dry_run] flag of the upgrade, one per release name when it returns;
    it never writes to the store. *)
Lemma upgrade_remove_run application dry_run old_template_schema
    (todo : list string) st :
  let run := upgrade_remove application dry_run old_template_schema todo
               st in
  ∃ evs, trace run.2 = trace st ++ evs ∧ db run.2 = db st
         ∧ Forall (λ ev, is_uninstall ev.1 = true
                         ∧ call_dry_run ev.1 = Some dry_run) evs
         ∧ (run.1 = inr () → length evs = length todo).
Proof.
  simpl. unfold upgrade_remove. apply for_each_events.
  intros release_name st0. cbv beta.
  destruct (dict_getitem release_name
              (TemplateSchema.chart_mapping old_template_schema))
    as [e|chart].
  { rewrite (bind_lift_raise _ _ _ _ eq_refl). exists [].
    by rewrite app_nil_r. }
  rewrite (bind_lift _ _ _ _ eq_refl).
  destruct (guarded_uninstall_events
              (application_uninstall_call application (Some dry_run) chart)
              (λ _, if negb dry_run
                    then logging_exception
                           (upgrade_remove_message chart application)
                    else mret ())
              st0) as (o & Htr & Hdb).
  { intros e st1. by destruct dry_run. }
  simpl in *. eexists [_]. rewrite Htr, Hdb. repeat split; try done.
  by repeat constructor.
Qed.

(** How far an upgrade gets: it raises before any chart call, or in the
    install phase, or in the update phase, or it reaches the removal
    phase. *)
Lemma upgrade_phases application template dry_run st :
  let run := upgrade application template dry_run st in
  (∃ e, run = (inl e, st))
  ∨ (∃ e evs, run.1 = inl e ∧ trace run.2 = trace st ++ evs
              ∧ db run.2 = db st
              ∧ Forall (λ ev, is_update ev.1 = false) evs)
  ∨ (∃ e evs last,
       run.1 = inl e ∧ trace run.2 = trace st ++ evs ++ last
       ∧ db run.2 = db st ∧ logs run.2 = logs st
       ∧ Forall (λ ev, ev.2 = None ∧ is_uninstall ev.1 = false) evs
       ∧ (last = [] ∨ ∃ call, is_update call = true
                              ∧ last = [(call, Some e)]))
  ∨ (∃ schema0 rendered_template old_template_schema new_template_schema
       evs_install evs_update evs_remove,
       load_template (TemplateRevision.template template) = inr schema0
       ∧ render_template (TemplateRevision.template template)
           (upgrade_user_inputs schema0 application)
         = inr rendered_template
       ∧ load_template rendered_template = inr new_template_schema
       ∧ load_template (Application.manifest application)
         = inr old_template_schema
       ∧ trace run.2
         = trace st ++ evs_install ++ evs_update ++ evs_remove
       ∧ length evs_install
         = length (set_iter (charts_to_install old_template_schema
                               new_template_schema))
       ∧ length evs_update
         = length (set_iter (releases_to_update old_template_schema
                               new_template_schema))
       ∧ Forall (λ ev, ev.2 = None ∧ is_install ev.1 = true
                       ∧ call_dry_run ev.1 = Some dry_run) evs_install
       ∧ Forall (λ ev, ev.2 = None ∧ is_update ev.1 = true
                       ∧ call_dry_run ev.1 = Some dry_run) evs_update
       ∧ Forall (λ ev, is_uninstall ev.1 = true
                       ∧ call_dry_run ev.1 = Some dry_run) evs_remove
       ∧ (dry_run = true → db run.2 = db st)
       ∧ (∀ result, run.1 = inr result →
            length evs_remove
            = length (set_iter (releases_to_remove old_template_schema
                                  new_template_schema))
            ∧ (dry_run = false →
               records (db run.2)
               = <[Application.id application :=
                     Application.set_user_inputs
                       (upgrade_user_inputs schema0 application)
                       (Application.set_template template
                          (Application.set_manifest rendered_template
                             application))]> (records (db st))))).
Proof.
  simpl. unfold upgrade.
  destruct (load_template (TemplateRevision.template template))
    as [e|schema0] eqn:Hload0.
  { left. exists e. by rewrite (bind_lift_raise _ _ _ _ eq_refl). }
  rewrite (bind_lift _ _ _ _ eq_refl). cbv zeta.
  destruct (render_template (TemplateRevision.template template)
              (upgrade_user_inputs schema0 application))
    as [e|rendered_template] eqn:Hrender.
  { left. exists e. by rewrite (bind_lift_raise _ _ _ _ eq_refl). }
  rewrite (bind_lift _ _ _ _ eq_refl).
  destruct (load_template rendered_template)
    as [e|new_template_schema] eqn:Hnew.
  { left. exists e. by rewrite (bind_lift_raise _ _ _ _ eq_refl). }
  rewrite (bind_lift _ _ _ _ eq_refl).
  destruct (load_template (Application.manifest application))
    as [e|old_template_schema] eqn:Hold.
  { left. exists e. by rewrite (bind_lift_raise _ _ _ _ eq_refl). }
  rewrite (bind_lift _ _ _ _ eq_refl). right.
  pose proof (upgrade_install_run application template dry_run
                new_template_schema
                (set_iter (charts_to_install old_template_schema
                             new_template_schema)) ∅ [] st) as Hinstall.
  simpl in Hinstall.
  destruct upgrade_install as [[e|install_results] st1] eqn:Hrun1.
  { left. rewrite (bind_inl _ _ _ _ _ Hrun1).
    destruct Hinstall as (evs & Htr & Hdb & HP). by exists e, evs. }
  rewrite (bind_inr _ _ _ _ _ Hrun1). right.
  destruct Hinstall as (charts & Hlen1 & Htr1 & Hlog1 & Hdb1).
  pose proof (upgrade_update_run application dry_run new_template_schema
                (set_iter (releases_to_update old_template_schema
                             new_template_schema)) ∅ st1) as Hupdate.
  destruct upgrade_update as [[e|update_results] st2] eqn:Hrun2.
  { left. rewrite (bind_inl _ _ _ _ _ Hrun2).
    destruct Hupdate as (evs & last & Htr2 & HP & Hlast & Hlog2 & Hdb2).
    exists e, (((λ c, (application_install_call application dry_run c,
                       None)) <$> charts) ++ evs), last.
    simpl. rewrite Htr2, Htr1, Hdb2, Hdb1, Hlog2, Hlog1, <- !app_assoc.
    repeat split; try done.
    apply Forall_app. split.
    - apply Forall_fmap, Forall_true. done.
    - eapply Forall_impl; [exact HP|].
      intros [c o] [Ho Hu]. simpl in *. split; [done|]. by destruct c. }
  rewrite (bind_inr _ _ _ _ _ Hrun2). right.
  destruct Hupdate as (evs_update & Hlen2 & Htr2 & HP2 & Hlog2 & Hdb2).
  destruct (upgrade_remove_run application dry_run old_template_schema
              (set_iter (releases_to_remove old_template_schema
                           new_template_schema)) st2)
    as (evs_remove & Htr3 & Hdb3 & HP3 & Hlen3).
  exists schema0, rendered_template, old_template_schema,
    new_template_schema,
    ((λ c, (application_install_call application dry_run c, None))
       <$> charts), evs_update, evs_remove.
  rewrite length_fmap.
  assert (Forall (λ ev : HelmCall value * option exn,
                    ev.2 = None ∧ is_install ev.1 = true
                    ∧ call_dry_run ev.1 = Some dry_run)
            ((λ c, (application_install_call application dry_run c, None))
               <$> charts)) as HP1
    by (apply Forall_fmap, Forall_true; done).
  unfold mbind, M_bind.
  destruct (upgrade_remove _ _ _ _ st2) as [[e|[]] st3]; simpl in *.
  - rewrite Htr3, Htr2, Htr1, Hdb3, Hdb2, Hdb1, <- !app_assoc.
    repeat split; done.
  - destruct dry_run; simpl.
    + rewrite Htr3, Htr2, Htr1, Hdb3, Hdb2, Hdb1, <- !app_assoc.
      repeat split; try done. by apply Hlen3.
    + rewrite Htr3, Htr2, Htr1, Hdb3, Hdb2, Hdb1, <- !app_assoc.
      repeat split; try done. by apply Hlen3.
Qed.

(** C2 (as the code has it). No handler surrounds the update calls of
    [upgrade]: when one of them raises, [upgrade] raises that exception to
    its caller. The failed call is the last chart call of the run, so no
    uninstall call compensates for anything (the calls before it all went
    through and none of them is an uninstall), nothing is logged and the
    record is not saved. *)
Theorem upgrade_update_failure_propagates
    application template dry_run st call e :
  let run := upgrade application template dry_run st in
  (call, Some e) ∈ new_events st run.2 →
  is_update call = true →
  run.1 = inl e
  ∧ (∃ evs, new_events st run.2 = evs ++ [(call, Some e)]
            ∧ Forall (λ ev, ev.2 = None ∧ is_uninstall ev.1 = false) evs)
  ∧ db run.2 = db st
  ∧ logs run.2 = logs st.
Proof.
  intros run Hin Hupdate. subst run.
  destruct (upgrade_phases application template dry_run st)
    as [(e' & Hrun)|[(e' & evs & Hres & Htr & Hdb & HP)
       |[(e' & evs & last & Hres & Htr & Hdb & Hlog & HP & Hlast)
        |(schema0 & rendered & old & new & evs1 & evs2 & evs3 & _ & _ & _
          & _ & Htr & _ & _ & HP1 & HP2 & HP3 & _)]]].
  - rewrite Hrun, new_events_refl in Hin. by apply elem_of_nil in Hin.
  - rewrite (new_events_app _ _ _ Htr) in Hin.
    rewrite Forall_forall in HP. specialize (HP _ Hin). simpl in HP.
    congruence.
  - rewrite (new_events_app _ _ _ Htr) in Hin |- *.
    rewrite Forall_forall in HP.
    apply elem_of_app in Hin as [Hin|Hin].
    { destruct (HP _ Hin) as [? _]. done. }
    destruct Hlast as [->|(call' & _ & ->)];
      [by apply elem_of_nil in Hin|].
    apply list_elem_of_singleton in Hin as [= <- <-].
    repeat split; try done. exists evs. by rewrite Forall_forall.
  - rewrite (new_events_app _ _ _ Htr) in Hin.
    rewrite Forall_forall in HP1, HP2, HP3.
    apply elem_of_app in Hin as [Hin|Hin];
      [by destruct (HP1 _ Hin) as [? _]|].
    apply elem_of_app in Hin as [Hin|Hin];
      [by destruct (HP2 _ Hin) as [? _]|].
    destruct (HP3 _ Hin) as [Hun _]. simpl in Hun. by destruct call.
Qed.

(** ** Dry runs *)

(** C8. A dry-run [install], [upgrade] or [update_user_inputs] that
    returns leaves the store as it found it ([install] returns no record),
    and every chart call it issued carries [dry_run = True]: the install
    calls of all the charts of the manifest, one call per release of the
    three diff sets, the update calls of all the releases of the new
    mapping. *)
Theorem dry_run_does_not_persist :
  (∀ context_name namespace user template inputs st result st',
     install context_name namespace user template inputs true st
     = (inr result, st') →
     result.1 = None
     ∧ db st' = db st
     ∧ Forall (λ ev, call_dry_run ev.1 = Some true) (new_events st st')
     ∧ ∃ manifest manifest_schema,
         render_template (TemplateRevision.template template) inputs
         = inr manifest
         ∧ load_template manifest = inr manifest_schema
         ∧ trace st'
           = trace st
             ++ ((λ c, (install_call context_name namespace user true c,
                        None))
                   <$> TemplateSchema.charts manifest_schema))
  ∧ (∀ application template st result st',
       upgrade application template true st = (inr result, st') →
       db st' = db st
       ∧ Forall (λ ev, call_dry_run ev.1 = Some true) (new_events st st')
       ∧ ∃ old_template_schema new_template_schema,
           load_template (Application.manifest application)
           = inr old_template_schema
           ∧ length (new_events st st')
             = length (set_iter (charts_to_install old_template_schema
                                   new_template_schema))
               + length (set_iter (releases_to_update old_template_schema
                                     new_template_schema))
               + length (set_iter (releases_to_remove old_template_schema
                                     new_template_schema)))
  ∧ (∀ application inputs st update_results st',
       update_user_inputs application inputs true st
       = (inr update_results, st') →
       db st' = db st
       ∧ Forall (λ ev, call_dry_run ev.1 = Some true) (new_events st st')
       ∧ ∃ new_manifes new_template_schema,
           render_template
             (TemplateRevision.template (Application.template application))
             inputs = inr new_manifes
           ∧ load_template new_manifes = inr new_template_schema
           ∧ trace st'
             = trace st
               ++ ((λ item : string * Chart.t value,
                      (application_update_call application true item.1
                         item.2, None))
                     <$> TemplateSchema.chart_mapping new_template_schema)).
Proof.
  split; [|split].
  - intros context_name namespace user template inputs st result st'.
    unfold install. run_pure; try done.
    pose proof (install_charts_run context_name namespace user true
                  (enumerate (TemplateSchema.charts schema)) ∅ st) as Hrun.
    simpl in Hrun.
    destruct install_charts as [[[[e index] chart]|results] st1].
    { by destruct e. }
    destruct Hrun as (Htr & Hlog & Hdb). simpl. intros [= <- <-].
    rewrite (enumerate_all
               (λ c, (install_call context_name namespace user true c,
                      None))) in Htr.
    rewrite (new_events_app _ _ _ Htr).
    repeat split; try done.
    + apply Forall_fmap, Forall_true. done.
    + by exists manifest, schema.
  - intros application template st result st' Hrun.
    destruct (upgrade_phases application template true st)
      as [(e' & Hrun')|[(e' & evs & Hres & _)
         |[(e' & evs & last & Hres & _)
          |(schema0 & rendered & old & new & evs1 & evs2 & evs3 & _ & _ & _
            & Hold & Htr & Hlen1 & Hlen2 & HP1 & HP2 & HP3 & Hdb
            & Hlen3)]]];
      rewrite Hrun in *; try done.
    simpl in *. destruct (Hlen3 result eq_refl) as [Hlen3' _].
    rewrite (new_events_app _ _ _ Htr).
    split; [by apply Hdb|]. split.
    + rewrite !Forall_app. repeat split.
      * eapply Forall_impl; [exact HP1|]. by intros ? (_ & _ & ?).
      * eapply Forall_impl; [exact HP2|]. by intros ? (_ & _ & ?).
      * eapply Forall_impl; [exact HP3|]. by intros ? (_ & ?).
    + exists old, new. split; [done|]. rewrite !length_app. lia.
  - intros application inputs st update_results st'.
    unfold update_user_inputs. unfold mbind, M_bind, lift.
    destruct (load_template (Application.manifest application))
      as [?|old_template_schema]; [done|].
    destruct (validate_inputs _ _) as [?|[]]; [done|].
    destruct (check_user_inputs _ _ _) as [?|[]]; [done|].
    destruct (render_template _ _) as [?|new_manifes] eqn:Hrender; [done|].
    destruct (load_template new_manifes) as [?|new_template_schema]
      eqn:Hload; [done|].
    pose proof (update_releases_run application true
                  (TemplateSchema.chart_mapping new_template_schema) ∅ st)
      as Hrun.
    simpl in Hrun.
    destruct update_releases as [[?|update_results'] st1]; [done|].
    destruct Hrun as (Htr & _ & _ & Hdb). simpl. intros [= <- <-].
    rewrite (new_events_app _ _ _ Htr).
    repeat split; try done.
    + apply Forall_fmap, Forall_true. done.
    + by exists new_manifes, new_template_schema.
Qed.
End Properties.








(** * Further properties of the orchestrator *)

Section MoreProperties.
Context {value R W : Type} {collaborators : Collaborators value R W}.

Implicit Types (st : State value W) (chart : Chart.t value).

#[local] Arguments install_failed_message : simpl never.
#[local] Arguments install_cleanup_message : simpl never.
#[local] Arguments upgrade_failed_message : simpl never.
#[local] Arguments upgrade_cleanup_message : simpl never.
#[local] Arguments upgrade_remove_message : simpl never.
#[local] Arguments terminate_message : simpl never.

(** ** Best-effort passes, whatever the backend raises *)

(** One guarded call: it returns when the backend returns or raises a
    [HelmException] (then the handler runs), and raises what the backend
    raised otherwise. *)
Lemma guarded_call_run (call : HelmCall value) (logged : bool)
    (message : string) st :
  let run :=
    try_except_HelmException (await call ;; mret ())
      (λ _, if logged then logging_exception message else mret ()) st in
  ∃ o, trace run.2 = trace st ++ [(call, o)]
       ∧ db run.2 = db st
       ∧ match o with
         | Some e =>
             if is_HelmException e
             then run.1 = inr ()
                  ∧ logs run.2
                    = logs st ++ (if logged then [message] else [])
             else run.1 = inl e ∧ logs run.2 = logs st
         | None => run.1 = inr () ∧ logs run.2 = logs st
         end.
Proof.
  simpl. unfold try_except_HelmException, mbind, M_bind, await.
  destruct (helm_manager call (helm st)) as [[e|r] w]; simpl.
  - exists (Some e).
    destruct e; simpl; try done.
    destruct logged; simpl; rewrite ?app_nil_r; done.
  - by exists None.
Qed.

(** A pass over [l] either reaches the end, every failure having been a
    [HelmException], or stops at the first call that raises something
    else: that exception leaves the loop and the items after it get no
    call. The store is not touched. *)
Lemma for_each_sweep_any {A} (mk : A → HelmCall value) (logged : bool)
    (message : A → string) (l : list A) st :
  let run :=
    for_each l (λ x,
      try_except_HelmException (await (mk x) ;; mret ())
        (λ _, if logged then logging_exception (message x) else mret ()))
      st in
  db run.2 = db st
  ∧ ((∃ outcomes,
        run.1 = inr ()
        ∧ length outcomes = length l
        ∧ Forall (λ o, ∀ e, o = Some e → is_HelmException e = true) outcomes
        ∧ trace run.2 = trace st ++ zip (mk <$> l) outcomes
        ∧ logs run.2
          = logs st
            ++ (if logged then failed_messages message l outcomes else []))
     ∨ (∃ j x e outcomes,
          run.1 = inl e
          ∧ is_HelmException e = false
          ∧ l !! j = Some x
          ∧ length outcomes = j
          ∧ Forall (λ o, ∀ e, o = Some e → is_HelmException e = true)
              outcomes
          ∧ trace run.2
            = trace st ++ zip (mk <$> take j l) outcomes ++ [(mk x, Some e)]
          ∧ logs run.2
            = logs st
              ++ (if logged then failed_messages message (take j l) outcomes
                  else []))).
Proof.
  revert st. induction l as [|x l IH]; intros st.
  - simpl. split; [done|]. left. exists [].
    destruct logged; simpl; rewrite ?app_nil_r; done.
  - cbv zeta. simpl for_each.
    destruct (guarded_call_run (mk x) logged (message x) st)
      as (o & Htr1 & Hdb1 & Ho).
    cbv zeta in Htr1, Hdb1, Ho.
    destruct (try_except_HelmException _ _ st) as [res st1] eqn:Hstep.
    simpl in Htr1, Hdb1, Ho.
    assert (∀ e, o = Some e → is_HelmException e = false →
                 res = inl e ∧ logs st1 = logs st) as Hstop.
    { intros e -> He. by rewrite He in Ho. }
    assert ((∀ e, o = Some e → is_HelmException e = true) →
            res = inr ()
            ∧ logs st1
              = logs st
                ++ (if logged
                    then failed_messages message [x] [o] else [])) as Hgo.
    { intros Hhelm. destruct o as [e|].
      - rewrite (Hhelm e eq_refl) in Ho. destruct Ho as [-> ->].
        by destruct logged.
      - destruct Ho as [-> ->]. destruct logged; by rewrite app_nil_r. }
    clear Ho.
    destruct o as [e|]; [destruct (is_HelmException e) eqn:He|].
    3: assert (∀ e : exn, None = Some e → is_HelmException e = true)
         as Hnone by done.
    1: assert (∀ e', Some e = Some e' → is_HelmException e' = true)
         as Hsome by (by intros ? [= <-]).
    2: { destruct (Hstop e eq_refl He) as [-> Hlog1].
         rewrite (bind_inl _ _ _ _ _ Hstep). simpl.
         split; [done|]. right. exists 0, x, e, [].
         rewrite Htr1, Hlog1. destruct logged; simpl; rewrite ?app_nil_r;
           done. }
    all: match goal with
         | H : ∀ e', ?o = Some e' → _ |- _ =>
             destruct (Hgo H) as [-> Hlog1]; clear Hgo Hstop
         end.
    all: rewrite (bind_inr _ _ _ _ _ Hstep).
    all: destruct (IH st1) as (Hdb & Hcases); cbv zeta in Hcases.
    all: split; [by rewrite Hdb|].
    all: destruct Hcases as [(outcomes & Hres & Hlen & Hok & Htr & Hlog)
                            |(j & y & e' & outcomes & Hres & He' & Hj & Hlen
                              & Hok & Htr & Hlog)].
    all: [> left; eexists (_ :: outcomes)
          | right; eexists (S j), y, e', (_ :: outcomes)
          | left; eexists (_ :: outcomes)
          | right; eexists (S j), y, e', (_ :: outcomes) ].
    all: rewrite Hres, Htr, Hlog, Htr1, Hlog1; simpl; rewrite Hlen.
    all: repeat split; try done.
    all: try (constructor; done).
    all: try (by rewrite <- !app_assoc).
    all: destruct logged; simpl; rewrite <- ?app_assoc, ?app_nil_r; done.
Qed.

Lemma elem_of_zip_outcome {A} (l : list A) (outcomes : list (option exn))
    (x : A) (o : option exn) :
  (x, o) ∈ zip l outcomes → o ∈ outcomes.
Proof. apply elem_of_zip_r. Qed.

Lemma swallowed_not_other (outcomes : list (option exn)) e :
  Forall (λ o, ∀ e, o = Some e → is_HelmException e = true) outcomes →
  Some e ∈ outcomes → is_HelmException e = false → False.
Proof.
  rewrite Forall_forall. intros Hall Hin He.
  rewrite (Hall _ Hin e eq_refl) in He. done.
Qed.

Lemma filter_events_Forall (P : HelmCall value → bool)
    (evs : list (HelmCall value * option exn)) :
  Forall (λ ev, P ev.1 = false) evs →
  filter (λ ev : HelmCall value * option exn, P ev.1) evs = [].
Proof.
  induction 1 as [|ev evs Hev _ IH]; [done|].
  rewrite filter_cons_False; [done|]. rewrite Hev. intros [].
Qed.

(** ** terminate *)

Lemma terminate_unfold application manifest_schema st :
  load_template (Application.manifest application) = inr manifest_schema →
  terminate application st
  = (for_each (TemplateSchema.charts manifest_schema) (λ chart,
       try_except_HelmException
         (await (application_uninstall_call application None chart) ;;
          mret ())
         (λ _, if true
               then logging_exception (terminate_message chart application)
               else mret ())) ;;
     db_delete (Application.id application)) st.
Proof. intros Hload. unfold terminate. by rewrite (bind_lift _ _ _ _ Hload). Qed.

(** [terminate] is best-effort for [HelmException] only. When an
    uninstall call raises anything else, [terminate] raises it: the charts
    after it get no uninstall call and the record is not deleted. *)
Theorem terminate_stops_at_other_exception
    application manifest_schema st call e :
  load_template (Application.manifest application) = inr manifest_schema →
  let charts := TemplateSchema.charts manifest_schema in
  let run := terminate application st in
  (call, Some e) ∈ new_events st run.2 →
  is_HelmException e = false →
  ∃ j chart outcomes,
    charts !! j = Some chart
    ∧ length outcomes = j
    ∧ call = application_uninstall_call application None chart
    ∧ new_events st run.2
      = zip (application_uninstall_call application None <$> take j charts)
          outcomes
        ++ [(call, Some e)]
    ∧ run.1 = inl e
    ∧ db run.2 = db st.
Proof.
  intros Hload charts run. subst run charts.
  rewrite (terminate_unfold _ _ _ Hload).
  destruct (for_each_sweep_any
              (application_uninstall_call application None) true
              (λ c, terminate_message c application)
              (TemplateSchema.charts manifest_schema) st) as (Hdb & Hcases).
  cbv zeta in Hdb, Hcases.
  destruct (for_each _ _ st) as [res st1] eqn:Hrun. simpl in Hdb, Hcases.
  destruct Hcases as [(outcomes & -> & Hlen & Hok & Htr & Hlog)
                     |(j & chart & e' & outcomes & -> & He' & Hj & Hlen
                       & Hok & Htr & Hlog)].
  - rewrite (bind_inr _ _ _ _ _ Hrun). simpl.
    unfold new_events. simpl. rewrite Htr, drop_app_length.
    intros Hin%elem_of_zip_outcome He.
    destruct (swallowed_not_other _ _ Hok Hin He).
  - rewrite (bind_inl _ _ _ _ _ Hrun). simpl.
    rewrite (new_events_app _ _ _ Htr).
    intros Hin He. apply elem_of_app in Hin as [Hin|Hin].
    { apply elem_of_zip_outcome in Hin.
      destruct (swallowed_not_other _ _ Hok Hin He). }
    apply list_elem_of_singleton in Hin as [= -> ->].
    by exists j, chart, outcomes.
Qed.

(** ** install *)

Lemma install_rollback_unfold context_name namespace user template
    (installed : list (Chart.t value)) st :
  install_rollback context_name namespace user template installed st
  = for_each (reverse installed) (λ chart,
      try_except_HelmException
        (await (install_rollback_call context_name namespace user chart) ;;
         mret ())
        (λ _, if true
              then logging_exception
                     (install_cleanup_message chart user template)
              else mret ())) st.
Proof. done. Qed.

Lemma install_charts_results context_name namespace user dry_run
    (todo : list (nat * Chart.t value)) results st results' st' :
  install_charts context_name namespace user dry_run todo results st
  = (inr results', st') →
  dom results' = dom results ∪ list_to_set ((λ ic, Chart.name ic.2) <$> todo).
Proof.
  revert results st.
  induction todo as [|[index chart] todo IH]; intros results st; simpl.
  - intros [= <- <-]. by rewrite (right_id_L ∅ (∪)).
  - destruct (await _ st) as [[e|r] st1]; [done|].
    intros Hrun. rewrite (IH _ _ Hrun), dom_insert_L.
    by rewrite (assoc_L (∪)), (comm_L (∪) {[Chart.name chart]}).
Qed.

(** A non-dry-run [install] that returns has issued the install calls of
    all the charts, in manifest order and all successful, and has created
    one record: it holds the rendered manifest, the inputs as they were
    given, the template, the status [running], and it is filed under the
    next identity of the store. The result map has the chart names as
    keys. *)
Theorem install_success_creates_record
    context_name namespace user template inputs st result st' :
  install context_name namespace user template inputs false st
  = (inr result, st') →
  ∃ manifest manifest_schema,
    let record :=
      {| Application.id := next_id (db st);
         Application.name := TemplateSchema.name manifest_schema;
         Application.description := EmptyString;
         Application.manifest := manifest;
         Application.status := running;
         Application.context_name := context_name;
         Application.namespace := namespace;
         Application.user_inputs := inputs;
         Application.template := template;
         Application.creator_id := User.id user;
         Application.organization := User.organization user |} in
    render_template (TemplateRevision.template template) inputs
    = inr manifest
    ∧ load_template manifest = inr manifest_schema
    ∧ trace st'
      = trace st
        ++ ((λ c, (install_call context_name namespace user false c, None))
              <$> TemplateSchema.charts manifest_schema)
    ∧ logs st' = logs st
    ∧ result.1 = Some record
    ∧ dom result.2
      = list_to_set (Chart.name <$> TemplateSchema.charts manifest_schema)
    ∧ records (db st') = <[next_id (db st) := record]> (records (db st))
    ∧ next_id (db st') = (next_id (db st) + 1)%Z.
Proof.
  unfold install. unfold mbind, M_bind, lift. simpl.
  destruct (validate_inputs _ _) as [?|[]]; [done|].
  destruct (render_template _ _) as [?|manifest] eqn:Hrender; [done|].
  destruct (load_template manifest) as [?|schema] eqn:Hload; [done|].
  pose proof (install_charts_run context_name namespace user false
                (enumerate (TemplateSchema.charts schema)) ∅ st) as Hrun.
  pose proof (install_charts_results context_name namespace user false
                (enumerate (TemplateSchema.charts schema)) ∅ st) as Hdom.
  simpl in Hrun.
  destruct install_charts as [[[[e index] chart]|results] st1].
  { destruct e; simpl.
    - destruct (install_rollback _ _ _ _ _ _) as [[?|[]] ?]; done.
    - done.
    - done.
    - done.
    - done. }
  destruct Hrun as (Htr & Hlog & Hdb). specialize (Hdom _ _ eq_refl).
  simpl. intros [= <- <-]. simpl.
  rewrite (enumerate_all
             (λ c, (install_call context_name namespace user false c, None)))
    in Htr.
  rewrite (enumerate_all Chart.name), dom_empty_L, (left_id_L ∅ (∪)) in Hdom.
  exists manifest, schema. rewrite Hdb. done.
Qed.

Ltac run_prechecks :=
  unfold mbind, M_bind, lift; simpl;
  repeat match goal with
    | |- context [validate_inputs ?t ?i] =>
        destruct (validate_inputs t i) as [?e|[]] eqn:?Hvalidate; simpl
    | |- context [render_template ?t ?i] =>
        destruct (render_template t i) as [?e|?manifest] eqn:?Hrender; simpl
    | |- context [load_template ?t] =>
        destruct (load_template t) as [?e|?schema] eqn:?Hload; simpl
    end.

(** The rollback of [install] issues uninstall calls only and leaves the
    store alone, whatever the backend raises. *)
Lemma install_rollback_events context_name namespace user template
    (installed : list (Chart.t value)) st :
  let run :=
    install_rollback context_name namespace user template installed st in
  ∃ evs, trace run.2 = trace st ++ evs ∧ db run.2 = db st
         ∧ Forall (λ ev, is_install ev.1 = false) evs.
Proof.
  cbv zeta. rewrite install_rollback_unfold.
  destruct (for_each_sweep_any
              (install_rollback_call context_name namespace user) true
              (λ c, install_cleanup_message c user template)
              (reverse installed) st) as (Hdb & Hcases).
  cbv zeta in Hdb, Hcases.
  destruct Hcases as [(outcomes & _ & _ & _ & Htr & _)
                     |(j & chart & e & outcomes & _ & _ & _ & _ & _ & Htr
                       & _)];
    eexists; (split; [exact Htr|]); (split; [exact Hdb|]).
  - apply Forall_forall. intros [c o] Hin.
    apply elem_of_zip_l, list_elem_of_fmap in Hin as (? & -> & _). done.
  - apply Forall_app. split; [|by repeat constructor].
    apply Forall_forall. intros [c o] Hin.
    apply elem_of_zip_l, list_elem_of_fmap in Hin as (? & -> & _). done.
Qed.

(** Only [HelmException] starts the rollback of [install]. When an install
    call raises anything else, dry run or not, [install] raises it at
    once: the charts installed before it get no uninstall call, nothing is
    logged and nothing is written. *)
Theorem install_other_exception_skips_rollback
    context_name namespace user template inputs dry_run st k failing e :
  1 ≤ k →
  let run :=
    install context_name namespace user template inputs dry_run st in
  filter (λ ev : HelmCall value * option exn, is_install ev.1)
    (new_events st run.2) !! (k - 1) = Some (failing, Some e) →
  is_HelmException e = false →
  ∃ manifest manifest_schema chart,
    let charts := TemplateSchema.charts manifest_schema in
    render_template (TemplateRevision.template template) inputs
    = inr manifest
    ∧ load_template manifest = inr manifest_schema
    ∧ charts !! (k - 1) = Some chart
    ∧ failing = install_call context_name namespace user dry_run chart
    ∧ new_events st run.2
      = ((λ c, (install_call context_name namespace user dry_run c, None))
           <$> take (k - 1) charts)
        ++ [(failing, Some e)]
    ∧ logs run.2 = logs st
    ∧ run.1 = inl e
    ∧ db run.2 = db st.
Proof.
  intros Hk run. subst run. unfold install.
  run_prechecks; try (rewrite new_events_refl; done).
  pose proof (install_charts_run context_name namespace user dry_run
                (enumerate (TemplateSchema.charts schema)) ∅ st) as Hrun.
  simpl in Hrun.
  destruct install_charts as [[[[e' index] chart]|results] st1].
  - destruct Hrun as (j & Hj & Htr & Hlog & Hdb).
    apply enumerate_lookup in Hj as [-> Hj].
    rewrite (enumerate_take
               (λ c, (install_call context_name namespace user dry_run c,
                      None))) in Htr.
    pose proof (lookup_lt_Some _ _ _ Hj) as Hlt.
    destruct (is_HelmException e') eqn:He'.
    + destruct e' as [m| | | |]; try discriminate He'.
      assert (∀ run',
                (∃ evs, trace run'
                        = trace st1 ++ evs
                        ∧ Forall (λ ev : HelmCall value * option exn,
                                    is_install ev.1 = false) evs) →
                filter (λ ev : HelmCall value * option exn, is_install ev.1)
                  (new_events st run') !! (k - 1)
                = Some (failing, Some e) →
                is_HelmException e = false → False) as Hcontra.
      { intros run' (evs & Htr' & Hevs) Hev He.
        rewrite Htr, <- !app_assoc in Htr'.
        rewrite (new_events_app _ _ _ Htr') in Hev.
        rewrite !filter_app, filter_events_all in Hev by done.
        rewrite filter_cons_True, filter_nil in Hev by done.
        rewrite (filter_events_Forall _ _ Hevs), app_nil_r in Hev.
        apply lookup_first_failure in Hev as (_ & _ & ->). done. }
      destruct dry_run; simpl.
      * intros Hev He. exfalso. apply (Hcontra st1); [|done|done].
        exists []. by rewrite app_nil_r.
      * unfold mbind, M_bind. simpl.
        match goal with
        | |- context [install_rollback ?c ?n ?u ?t ?i ?s] =>
            destruct (install_rollback_events c n u t i s)
              as (evs & Htr' & _ & Hevs);
            destruct (install_rollback c n u t i s) as [[?|[]] st2]
        end; simpl in *.
        all: intros Hev He; exfalso; apply (Hcontra st2); [|done|done].
        all: by exists evs.
    + destruct e' as [m| | | |]; try discriminate He'; simpl.
      all: rewrite (new_events_app _ _ _ Htr).
      all: rewrite filter_app, filter_events_all by done.
      all: rewrite filter_cons_True, filter_nil by done.
      all: intros Hev He.
      all: apply lookup_first_failure in Hev as (Hkj & -> & ->).
      all: rewrite length_take_le in Hkj by lia; rewrite Hkj.
      all: by exists manifest, schema, chart.
  - destruct Hrun as (Htr & Hlog & Hdb).
    rewrite (enumerate_all
               (λ c, (install_call context_name namespace user dry_run c,
                      None))) in Htr.
    assert (∀ st2, trace st2 = trace st1 →
                   filter (λ ev : HelmCall value * option exn,
                             is_install ev.1) (new_events st st2) !! (k - 1)
                   = Some (failing, Some e) → False) as Hcontra.
    { intros st2 Htr2. rewrite Htr in Htr2.
      rewrite (new_events_app _ _ _ Htr2).
      rewrite filter_events_all, list_lookup_fmap by done.
      destruct (_ !! _); simpl; intros [=]. }
    destruct dry_run; simpl; intros Hev _; exfalso;
      by eapply Hcontra; [|exact Hev].
Qed.

Lemma install_rollback_any context_name namespace user template
    (installed : list (Chart.t value)) st :
  let mk := install_rollback_call context_name namespace user in
  let message := λ c, install_cleanup_message c user template in
  let l := reverse installed in
  let run :=
    install_rollback context_name namespace user template installed st in
  db run.2 = db st
  ∧ ((∃ outcomes,
        run.1 = inr ()
        ∧ length outcomes = length l
        ∧ Forall (λ o, ∀ e, o = Some e → is_HelmException e = true) outcomes
        ∧ trace run.2 = trace st ++ zip (mk <$> l) outcomes
        ∧ logs run.2 = logs st ++ failed_messages message l outcomes)
     ∨ (∃ j x e outcomes,
          run.1 = inl e
          ∧ is_HelmException e = false
          ∧ l !! j = Some x
          ∧ length outcomes = j
          ∧ Forall (λ o, ∀ e, o = Some e → is_HelmException e = true)
              outcomes
          ∧ trace run.2
            = trace st ++ zip (mk <$> take j l) outcomes ++ [(mk x, Some e)]
          ∧ logs run.2
            = logs st ++ failed_messages message (take j l) outcomes)).
Proof.
  exact (for_each_sweep_any
           (install_rollback_call context_name namespace user) true
           (λ c, install_cleanup_message c user template)
           (reverse installed) st).
Qed.

(** The rollback of [install] is best-effort for [HelmException] only.
    When, after a failed install call, an uninstall call of the rollback
    raises anything else, the rollback stops there: the charts not yet
    reached stay installed, and [install] raises that exception instead of
    the one of the install call. *)
Theorem install_rollback_stops_at_other_exception
    context_name namespace user template inputs st k failing m call e :
  1 ≤ k →
  let run := install context_name namespace user template inputs false st in
  filter (λ ev : HelmCall value * option exn, is_install ev.1)
    (new_events st run.2) !! (k - 1)
  = Some (failing, Some (HelmException m)) →
  (call, Some e) ∈ new_events st run.2 →
  is_uninstall call = true →
  is_HelmException e = false →
  ∃ manifest manifest_schema j chart outcomes,
    let installed := take (k - 1) (TemplateSchema.charts manifest_schema) in
    render_template (TemplateRevision.template template) inputs
    = inr manifest
    ∧ load_template manifest = inr manifest_schema
    ∧ reverse installed !! j = Some chart
    ∧ length outcomes = j
    ∧ call = install_rollback_call context_name namespace user chart
    ∧ new_events st run.2
      = ((λ c, (install_call context_name namespace user false c, None))
           <$> installed)
        ++ [(failing, Some (HelmException m))]
        ++ zip (install_rollback_call context_name namespace user
                  <$> take j (reverse installed)) outcomes
        ++ [(call, Some e)]
    ∧ run.1 = inl e
    ∧ db run.2 = db st.
Proof.
  intros Hk run. subst run. unfold install.
  run_prechecks; try (rewrite new_events_refl; done).
  pose proof (install_charts_run context_name namespace user false
                (enumerate (TemplateSchema.charts schema)) ∅ st) as Hrun.
  simpl in Hrun.
  destruct install_charts as [[[[e' index] chart]|results] st1].
  - destruct Hrun as (j0 & Hj & Htr & Hlog & Hdb).
    apply enumerate_lookup in Hj as [-> Hj].
    rewrite (enumerate_take
               (λ c, (install_call context_name namespace user false c,
                      None))) in Htr.
    pose proof (lookup_lt_Some _ _ _ Hj) as Hlt.
    destruct e' as [m'| | | |]; simpl.
    2-5: intros Hev; exfalso.
    2-5: rewrite (new_events_app _ _ _ Htr) in Hev.
    2-5: rewrite filter_app, filter_events_all in Hev by done.
    2-5: rewrite filter_cons_True, filter_nil in Hev by done.
    2-5: by apply lookup_first_failure in Hev as (_ & _ & ?).
    unfold mbind, M_bind. simpl.
    match goal with
    | |- context [install_rollback ?c ?n ?u ?t ?i ?s] =>
        destruct (install_rollback_any c n u t i s) as (Hdb' & Hcases);
        cbv zeta in Hdb', Hcases;
        destruct (install_rollback c n u t i s) as [res st2]
    end.
    simpl in Hdb', Hcases.
    destruct Hcases as [(outcomes & -> & Hlen & Hok & Htr' & Hlog')
                       |(j & x & e' & outcomes & -> & He' & Hx & Hlen
                         & Hok & Htr' & Hlog')];
      simpl; rewrite Htr, <- !app_assoc in Htr';
      rewrite (new_events_app _ _ _ Htr');
      rewrite !filter_app, filter_events_all by done;
      rewrite filter_cons_True, filter_nil by done.
    + intros _ Hin Hun He. exfalso.
      apply elem_of_app in Hin as [Hin|Hin].
      { apply list_elem_of_fmap in Hin as (? & Heq & _). by inversion Heq. }
      apply elem_of_cons in Hin as [Heq|Hin];
        [injection Heq as -> _; done|].
      apply elem_of_zip_outcome in Hin.
      by destruct (swallowed_not_other _ _ Hok Hin He).
    + rewrite filter_events_none by done.
      rewrite filter_cons_False, filter_nil, app_nil_r by (intros []).
      intros Hev Hin Hun He.
      apply lookup_first_failure in Hev as (Hkj & -> & [= ->]).
      rewrite length_take_le in Hkj by lia. rewrite Hkj.
      apply elem_of_app in Hin as [Hin|Hin].
      { apply list_elem_of_fmap in Hin as (? & Heq & _). by inversion Heq. }
      apply elem_of_cons in Hin as [Heq|Hin];
        [injection Heq as -> _; done|].
      apply elem_of_app in Hin as [Hin|Hin].
      { apply elem_of_zip_outcome in Hin.
        by destruct (swallowed_not_other _ _ Hok Hin He). }
      apply list_elem_of_singleton in Hin as [= -> ->].
      exists manifest, schema, j, x, outcomes.
      rewrite Hdb', Hdb. done.
  - destruct Hrun as (Htr & Hlog & Hdb). simpl.
    rewrite (enumerate_all
               (λ c, (install_call context_name namespace user false c,
                      None))) in Htr.
    unfold new_events, db_create. simpl. rewrite Htr, drop_app_length.
    rewrite filter_events_all, list_lookup_fmap by done.
    destruct (_ !! _); simpl; intros [=].
Qed.

(** ** update_user_inputs *)

(** No handler surrounds the update calls of [update_user_inputs]. When
    one raises, [update_user_inputs] raises that exception: the releases
    before it in the new mapping have been updated and stay so, the ones
    after it get no call, nothing is logged and the record is not saved,
    dry run or not. *)
Theorem update_user_inputs_update_failure
    application inputs dry_run st call e :
  let run := update_user_inputs application inputs dry_run st in
  (call, Some e) ∈ new_events st run.2 →
  ∃ new_manifes new_template_schema j item,
    let items := TemplateSchema.chart_mapping new_template_schema in
    render_template
      (TemplateRevision.template (Application.template application)) inputs
    = inr new_manifes
    ∧ load_template new_manifes = inr new_template_schema
    ∧ items !! j = Some item
    ∧ call = application_update_call application dry_run item.1 item.2
    ∧ new_events st run.2
      = ((λ item : string * Chart.t value,
            (application_update_call application dry_run item.1 item.2,
             None)) <$> take j items)
        ++ [(call, Some e)]
    ∧ run.1 = inl e
    ∧ logs run.2 = logs st
    ∧ db run.2 = db st.
Proof.
  cbv zeta. unfold update_user_inputs. unfold mbind, M_bind, lift.
  destruct (load_template (Application.manifest application))
    as [?|old_template_schema];
    [simpl; rewrite new_events_refl; by intros ?%elem_of_nil|].
  destruct (validate_inputs _ _) as [?|[]];
    [simpl; rewrite new_events_refl; by intros ?%elem_of_nil|].
  destruct (check_user_inputs _ _ _) as [?|[]];
    [simpl; rewrite new_events_refl; by intros ?%elem_of_nil|].
  destruct (render_template _ _) as [?|new_manifes] eqn:Hrender;
    [simpl; rewrite new_events_refl; by intros ?%elem_of_nil|].
  destruct (load_template new_manifes) as [?|new_template_schema] eqn:Hload;
    [simpl; rewrite new_events_refl; by intros ?%elem_of_nil|].
  pose proof (update_releases_run application dry_run
                (TemplateSchema.chart_mapping new_template_schema) ∅ st)
    as Hrun.
  simpl in Hrun.
  destruct update_releases as [[e'|update_results] st1].
  - destruct Hrun as (j & item & Hj & Htr & Hlog & Hdb). simpl.
    rewrite (new_events_app _ _ _ Htr). intros Hin.
    apply elem_of_app in Hin as [Hin|Hin].
    { apply list_elem_of_fmap in Hin as (? & Heq & _). by inversion Heq. }
    apply list_elem_of_singleton in Hin as [= -> ->].
    by exists new_manifes, new_template_schema, j, item.
  - destruct Hrun as (Htr & _).
    assert (∀ st2, trace st2 = trace st1 →
                   (call, Some e) ∈ new_events st st2 → False) as Hcontra.
    { intros st2 Htr2. rewrite Htr in Htr2.
      rewrite (new_events_app _ _ _ Htr2). intros Hin.
      apply list_elem_of_fmap in Hin as (? & Heq & _). by inversion Heq. }
    destruct dry_run; simpl; intros Hin; exfalso;
      by eapply Hcontra; [|exact Hin].
Qed.

Lemma collect_violating_inputs_missing (inputs stored : gmap string value)
    (before after : list string) name violating_inputs :
  Forall (λ n, n ∈ dom inputs ∧ n ∈ dom stored) before →
  name ∉ dom inputs ∨ name ∉ dom stored →
  collect_violating_inputs inputs stored (before ++ name :: after)
    violating_inputs = inl (KeyError name).
Proof.
  intros Hbefore Hmissing. revert violating_inputs.
  induction Hbefore as [|n before [Hn Hn'] _ IH]; intros violating_inputs.
  - simpl. unfold gmap_getitem.
    destruct (inputs !! name) as [new_value|] eqn:Hnew; [|done].
    destruct (stored !! name) as [old_value|] eqn:Hold; [|done].
    destruct Hmissing as [[]|[]]; apply elem_of_dom; eauto.
  - simpl. unfold gmap_getitem.
    apply elem_of_dom in Hn as [new_value ->].
    apply elem_of_dom in Hn' as [old_value ->]. apply IH.
Qed.

(** The immutability check reads every immutable input from both
    dictionaries. When the key sets agree but an immutable input of the
    stored manifest is not among the keys, the lookup raises [KeyError]
    for the first such input: [update_user_inputs] raises it, not an
    [InvalidUserInputsException], whether or not other immutable inputs
    changed, and leaves the state as it found it. *)
Theorem update_user_inputs_missing_immutable_key
    application inputs dry_run st old_template_schema before name after :
  load_template (Application.manifest application)
  = inr old_template_schema →
  validate_inputs (Application.manifest application) inputs = inr () →
  dom inputs = dom (Application.user_inputs application) →
  immutable_inputs old_template_schema = before ++ name :: after →
  Forall (λ n, n ∈ dom inputs) before →
  name ∉ dom inputs →
  update_user_inputs application inputs dry_run st = (inl (KeyError name), st).
Proof.
  intros Hload Hvalidate Hkeys Himmutable Hbefore Hname.
  apply (update_user_inputs_rejected _ _ _ _ _ _ Hload Hvalidate).
  unfold check_user_inputs. rewrite decide_False by (by intros []).
  rewrite Himmutable, collect_violating_inputs_missing; [done| |by left].
  eapply Forall_impl; [exact Hbefore|]. intros n Hn. by rewrite <- Hkeys.
Qed.

(** ** upgrade: the defaults *)

(** The default that [upgrade] takes for a name is the one of the last
    input of that name that has a default; inputs without a default do not
    count, whatever their position. *)
Theorem input_defaults_last_wins (inputs : list (Input.t value)) name d :
  input_defaults inputs !! name = Some d
  ↔ ∃ i input,
      inputs !! i = Some input
      ∧ Input.name input = name
      ∧ Input.default input = Some d
      ∧ ∀ j input', i < j → inputs !! j = Some input' →
                    Input.name input' = name →
                    Input.default input' = None.
Proof.
  induction inputs as [|input inputs IH] using rev_ind.
  - unfold input_defaults. simpl. rewrite lookup_empty.
    split; [done|]. by intros (i & ? & ? & _).
  - rewrite input_defaults_snoc. split.
    + intros Hlookup.
      destruct (Input.default input) as [d'|] eqn:Hd.
      * destruct (decide (Input.name input = name)) as [Heq|Hne].
        -- rewrite Heq, lookup_insert_eq in Hlookup.
           injection Hlookup as ->.
           exists (length inputs), input.
           rewrite list_lookup_middle by done. repeat split; try done.
           intros j input' Hlt Hj.
           apply lookup_lt_Some in Hj. rewrite length_app in Hj.
           simpl in Hj. lia.
        -- rewrite lookup_insert_ne in Hlookup by done.
           apply IH in Hlookup as (i & input0 & Hi & Hname & Hdef & Hlast).
           exists i, input0. rewrite lookup_app_l
             by (by apply lookup_lt_Some in Hi).
           repeat split; try done.
           intros j input' Hlt Hj Hname'.
           apply lookup_app_Some in Hj as [Hj|[Hge Hj]]; [by eauto|].
           destruct (j - length inputs) as [|n]; simpl in Hj; [|done].
           injection Hj as <-. done.
      * apply IH in Hlookup as (i & input0 & Hi & Hname & Hdef & Hlast).
        exists i, input0. rewrite lookup_app_l
          by (by apply lookup_lt_Some in Hi).
        repeat split; try done.
        intros j input' Hlt Hj Hname'.
        apply lookup_app_Some in Hj as [Hj|[Hge Hj]]; [by eauto|].
        destruct (j - length inputs) as [|n]; simpl in Hj; [|done].
        injection Hj as <-. done.
    + intros (i & input0 & Hi & Hname & Hdef & Hlast).
      apply lookup_app_Some in Hi as [Hi|[Hge Hi]].
      * assert (input_defaults inputs !! name = Some d) as Hold.
        { apply IH. exists i, input0. repeat split; try done.
          intros j input' Hlt Hj. apply (Hlast j input' Hlt).
          by apply lookup_app_l_Some. }
        destruct (Input.default input) as [d'|] eqn:Hd; [|done].
        destruct (decide (Input.name input = name)) as [Heq|Hne].
        -- pose proof (Hlast (length inputs) input) as Hnone.
           rewrite list_lookup_middle in Hnone by done.
           rewrite Hnone in Hd; [done| |done|done].
           by apply lookup_lt_Some in Hi.
        -- by rewrite lookup_insert_ne.
      * destruct (i - length inputs) as [|n]; simpl in Hi; [|done].
        injection Hi as <-. rewrite Hdef, Hname. by rewrite lookup_insert_eq.
Qed.

(** ** upgrade *)


Lemma upgrade_rollback_run application template
    (installed_charts : list (Chart.t value)) st :
  helm_raises_only_HelmException collaborators →
  ∃ outcomes st',
    upgrade_rollback application template installed_charts st = (inr (), st')
    ∧ length outcomes = length installed_charts
    ∧ trace st'
      = trace st
        ++ zip (application_uninstall_call application None
                  <$> reverse installed_charts) outcomes
    ∧ logs st'
      = logs st
        ++ failed_messages
             (λ c, upgrade_cleanup_message c application template)
             (reverse installed_charts) outcomes
    ∧ db st' = db st.
Proof.
  intros Hhelm.
  destruct (for_each_sweep (application_uninstall_call application None) true
              (λ c, upgrade_cleanup_message c application template)
              (reverse installed_charts) st Hhelm)
    as (outcomes & st' & Hrun & Hlen & Htr & Hlog & Hdb).
  exists outcomes, st'. rewrite length_reverse in Hlen. done.
Qed.

(** The install phase, exactly. It returns after one successful install
    call per release name. It raises either because a release name is not
    a key of the new mapping, or because an install call raised: then,
    unless this is a dry run, the charts installed so far were uninstalled
    latest first. *)
Lemma upgrade_install_exact application template dry_run new_template_schema
    (todo : list string) install_results installed_charts st :
  helm_raises_only_HelmException collaborators →
  let call := application_install_call application dry_run in
  let events := λ charts : list (Chart.t value),
    (λ c, (call c, @None exn)) <$> charts in
  match upgrade_install application template dry_run new_template_schema
          todo install_results installed_charts st with
  | (inr _, st') =>
      ∃ charts, length charts = length todo
                ∧ trace st' = trace st ++ events charts
                ∧ logs st' = logs st ∧ db st' = db st
  | (inl e, st') =>
      db st' = db st
      ∧ ((∃ charts, trace st' = trace st ++ events charts
                    ∧ logs st' = logs st)
         ∨ (∃ charts chart m outcomes,
              e = HelmException m
              ∧ length charts < length todo
              ∧ trace st'
                = trace st ++ events charts ++ [(call chart, Some e)]
                  ++ (if dry_run then []
                      else zip (application_uninstall_call application None
                                  <$> reverse (installed_charts ++ charts))
                             outcomes)
              ∧ (dry_run = false →
                 length outcomes = length (installed_charts ++ charts))
              ∧ logs st'
                = logs st
                  ++ (if dry_run then []
                      else upgrade_failed_message chart application template
                           :: failed_messages
                                (λ c, upgrade_cleanup_message c application
                                        template)
                                (reverse (installed_charts ++ charts))
                                outcomes)))
  end.
Proof.
  intros Hhelm call events. revert install_results installed_charts st.
  induction todo as [|release_name todo IH];
    intros install_results installed_charts st; simpl.
  - exists []. by rewrite app_nil_r.
  - unfold mbind at 1, M_bind at 1, lift.
    destruct (dict_getitem release_name _) as [e|chart].
    { split; [done|]. left. exists []. by rewrite app_nil_r. }
    unfold mbind at 1, M_bind at 1, try_except_HelmException, await.
    fold call.
    destruct (helm_manager (call chart) (helm st)) as [[e|r] w] eqn:Hcall.
    + pose proof (Hhelm (call chart) (helm st) e) as He.
      rewrite Hcall in He. specialize (He eq_refl).
      destruct e as [m| | | |]; try discriminate He. clear He.
      destruct dry_run; simpl.
      { split; [done|]. right. exists [], chart, m, []. simpl.
        rewrite !app_nil_r. repeat split; try done. lia. }
      unfold mbind, M_bind. simpl.
      match goal with
      | |- context [upgrade_rollback ?a ?t ?i ?s] =>
          destruct (upgrade_rollback_run a t i s Hhelm)
            as (outcomes & st2 & -> & Hlen & Htr & Hlog & Hdb)
      end.
      simpl in *. split; [done|]. right.
      exists [], chart, m, outcomes. simpl.
      rewrite !app_nil_r, Htr, Hlog, <- !app_assoc.
      repeat split; try done. lia.
    + specialize (IH (<[Chart.name chart := r]> install_results)
                    (installed_charts ++ [chart])
                    {| helm := w; trace := trace st ++ [(call chart, None)];
                       logs := logs st; db := db st |}).
      destruct upgrade_install as [[e|results'] st'].
      * destruct IH as (Hdb & [(charts & Htr & Hlog)
                              |(charts & chart' & m & outcomes & -> & Hlt
                                & Htr & Hlen & Hlog)]).
        -- split; [done|]. left. exists (chart :: charts). simpl in *.
           rewrite Htr, <- app_assoc. done.
        -- split; [done|]. right.
           exists (chart :: charts), chart', m, outcomes. simpl in *.
           rewrite <- !app_assoc in Htr, Hlen, Hlog. simpl in *.
           rewrite Htr, <- !app_assoc. repeat split; try done. lia.
      * destruct IH as (charts & Hlen & Htr & Hlog & Hdb).
        exists (chart :: charts). simpl in *.
        rewrite Hlen, Htr, Hlog, Hdb, <- app_assoc. done.
Qed.

(** What follows the install phase issues no install call. *)
Lemma upgrade_after_install_events {A} application dry_run
    old_template_schema new_template_schema (names_update names_remove
    : list string) (finish : gmap string R → M A) st :
  (∀ update_results st0, trace (finish update_results st0).2 = trace st0) →
  let run :=
    (update_results ← upgrade_update application dry_run
                         new_template_schema names_update ∅;
     upgrade_remove application dry_run old_template_schema names_remove ;;
     finish update_results) st in
  ∃ evs, trace run.2 = trace st ++ evs
         ∧ Forall (λ ev, is_install ev.1 = false) evs.
Proof.
  intros Hfinish. cbv zeta.
  pose proof (upgrade_update_run application dry_run new_template_schema
                names_update ∅ st) as Hupdate.
  destruct upgrade_update as [[e|update_results] st1] eqn:Hrun1.
  - rewrite (bind_inl _ _ _ _ _ Hrun1).
    destruct Hupdate as (evs & last & Htr & HP & Hlast & _).
    exists (evs ++ last). simpl. split; [done|].
    apply Forall_app. split.
    + eapply Forall_impl; [exact HP|]. intros [c o] [_ Hc]. by destruct c.
    + destruct Hlast as [->|(c & Hc & ->)]; [done|].
      repeat constructor. by destruct c.
  - rewrite (bind_inr _ _ _ _ _ Hrun1).
    destruct Hupdate as (evs & _ & Htr & HP & _).
    destruct (upgrade_remove_run application dry_run old_template_schema
                names_remove st1) as (evs' & Htr' & _ & HP' & _).
    cbv zeta in Htr'.
    assert (Forall (λ ev : HelmCall value * option exn,
                      is_install ev.1 = false) (evs ++ evs')) as Hall.
    { apply Forall_app. split.
      - eapply Forall_impl; [exact HP|].
        intros [c o] (_ & Hc & _). by destruct c.
      - eapply Forall_impl; [exact HP'|]. intros [c o] [Hc _]. by destruct c. }
    destruct (upgrade_remove _ _ _ _ st1) as [[e|[]] st2] eqn:Hrun2.
    + rewrite (bind_inl _ _ _ _ _ Hrun2). simpl in *.
      exists (evs ++ evs'). by rewrite Htr', Htr, <- app_assoc.
    + rewrite (bind_inr _ _ _ _ _ Hrun2). simpl in *.
      exists (evs ++ evs'). by rewrite Hfinish, Htr', Htr, <- app_assoc.
Qed.

Ltac upgrade_prechecks :=
  unfold upgrade;
  repeat match goal with
    | |- context [(lift (load_template ?t) ≫= _) _] =>
        destruct (load_template t) as [?e|?schema] eqn:?Hload;
        [rewrite (bind_lift_raise _ _ _ _ eq_refl)
        |rewrite (bind_lift _ _ _ _ eq_refl); cbv zeta]
    | |- context [(lift (render_template ?t ?i) ≫= _) _] =>
        destruct (render_template t i) as [?e|?rendered] eqn:?Hrender;
        [rewrite (bind_lift_raise _ _ _ _ eq_refl)
        |rewrite (bind_lift _ _ _ _ eq_refl); cbv zeta]
    end.

(** When an install call of [upgrade] raises a [HelmException], the
    charts that this upgrade installed before it, and only they, are
    uninstalled, latest first and unless this is a dry run; no update call
    and no uninstall call of a removed release is issued; [upgrade] raises
    the exception and saves nothing. The calls are spelled out: each
    uninstall call is addressed to the release named after its chart, in
    the organization, the context and the namespace of the application,
    and the release names of the uninstall calls are the names of the
    charts installed before the failure, reversed. *)
Theorem upgrade_install_failure_rolls_back
    application template dry_run st k failing m :
  helm_raises_only_HelmException collaborators →
  1 ≤ k →
  let run := upgrade application template dry_run st in
  filter (λ ev : HelmCall value * option exn, is_install ev.1)
    (new_events st run.2) !! (k - 1)
  = Some (failing, Some (HelmException m)) →
  ∃ installed chart outcomes,
    let organization := Application.organization application in
    let context_name := Application.context_name application in
    let namespace := Application.namespace application in
    length installed = k - 1
    ∧ failing
      = install_chart organization context_name namespace
          (Chart.name chart) (Chart.chart chart) (Chart.version chart)
          (Chart.values chart) dry_run
    ∧ new_events st run.2
      = ((λ c, (install_chart organization context_name namespace
                  (Chart.name c) (Chart.chart c) (Chart.version c)
                  (Chart.values c) dry_run, None))
           <$> installed)
        ++ [(failing, Some (HelmException m))]
        ++ (if dry_run then []
            else zip ((λ c, uninstall_release organization context_name
                              namespace (Chart.name c) None)
                        <$> reverse installed) outcomes)
    ∧ uninstalled_release_names (new_events st run.2)
      = (if dry_run then [] else reverse (Chart.name <$> installed))
    ∧ (dry_run = false → length outcomes = k - 1)
    ∧ logs run.2
      = logs st
        ++ (if dry_run then []
            else upgrade_failed_message chart application template
                 :: failed_messages
                      (λ c, upgrade_cleanup_message c application template)
                      (reverse installed) outcomes)
    ∧ run.1 = inl (HelmException m)
    ∧ db run.2 = db st.
Proof.
  intros Hhelm Hk run. subst run.
  upgrade_prechecks; try (simpl; rewrite new_events_refl; done).
  match goal with
  | |- context [upgrade_install ?a ?t ?d ?n ?todo ?r ?i] =>
      pose proof (upgrade_install_exact a t d n todo r i st Hhelm) as Hphase;
      cbv zeta in Hphase;
      destruct (upgrade_install a t d n todo r i st) as [[e|results] st1]
        eqn:Hrun1
  end.
  - rewrite (bind_inl _ _ _ _ _ Hrun1). simpl.
    destruct Hphase as (Hdb & [(charts & Htr & Hlog)
                              |(charts & chart & m' & outcomes & -> & Hlt
                                & Htr & Hlen & Hlog)]).
    + rewrite (new_events_app _ _ _ Htr), filter_events_all by done.
      rewrite list_lookup_fmap. destruct (_ !! _); simpl; intros [=].
    + simpl in Htr, Hlen, Hlog.
      rewrite (new_events_app _ _ _ Htr).
      rewrite filter_app, filter_events_all by done.
      rewrite filter_cons_True by done.
      assert (filter (λ ev : HelmCall value * option exn, is_install ev.1)
                (if dry_run then []
                 else zip (application_uninstall_call application None
                             <$> reverse charts) outcomes) = []) as ->
        by (destruct dry_run; [done|by apply filter_events_none]).
      intros Hev.
      apply lookup_first_failure in Hev as (Hkj & -> & [= ->]).
      exists charts, chart, outcomes. rewrite Hkj. cbv zeta.
      split; [done|]. split; [done|]. split; [done|]. split; [|done].
      rewrite uninstalled_release_names_app.
      rewrite (uninstalled_release_names_skip
                 (application_install_call application dry_run)) by done.
      rewrite uninstalled_release_names_cons. simpl.
      destruct dry_run; [done|].
      rewrite (uninstalled_release_names_zip
                 (application_uninstall_call application None) Chart.name)
        by (rewrite ?length_reverse; auto).
      by rewrite fmap_reverse.
  - rewrite (bind_inr _ _ _ _ _ Hrun1).
    destruct Hphase as (charts & Hlen & Htr & Hlog & Hdb).
    match goal with
    | |- context [upgrade_update ?a ?d ?n ?todo ∅] =>
        match goal with
        | |- context [upgrade_remove a d ?o ?todo'] =>
            match goal with
            | |- context [(if negb d then ?save else mret ())] =>
                destruct (upgrade_after_install_events a d o n todo todo'
                            (λ update_results,
                               (if negb d then save else mret ()) ;;
                               mret {| installed_releases := results;
                                       updated_releases := update_results;
                                       uninstalled_releases := todo' |})
                            st1) as (evs & Htr' & Hevs)
            end
        end
    end.
    { intros update_results st0. by destruct dry_run. }
    cbv beta zeta in Htr'. rewrite Htr, <- app_assoc in Htr'.
    rewrite (new_events_app _ _ _ Htr').
    rewrite filter_app, filter_events_all by done.
    rewrite (filter_events_Forall _ _ Hevs), app_nil_r, list_lookup_fmap.
    destruct (_ !! _); simpl; intros [=].
Qed.



(** A non-dry-run [upgrade] that returns has saved the record with the
    newly rendered manifest, the new template and the merged inputs, and
    has changed nothing else in it. The saved inputs therefore hold a
    value for every input of the new template that has a default. *)
Theorem upgrade_success_persists application template st result st' :
  upgrade application template false st = (inr result, st') →
  ∃ schema0 rendered_template,
    let merged := upgrade_user_inputs schema0 application in
    let saved :=
      Application.set_user_inputs merged
        (Application.set_template template
           (Application.set_manifest rendered_template application)) in
    load_template (TemplateRevision.template template) = inr schema0
    ∧ render_template (TemplateRevision.template template) merged
      = inr rendered_template
    ∧ records (db st')
      = <[Application.id application := saved]> (records (db st))
    ∧ records (db st') !! Application.id application = Some saved
    ∧ Application.manifest saved = rendered_template
    ∧ Application.template saved = template
    ∧ Application.user_inputs saved = merged
    ∧ (∀ name d,
         input_defaults (TemplateSchema.inputs schema0) !! name = Some d →
         is_Some (Application.user_inputs saved !! name)).
Proof.
  intros Hrun.
  destruct (upgrade_phases application template false st)
    as [(e' & Hrun')|[(e' & evs & Hres & _)
       |[(e' & evs & last & Hres & _)
        |(schema0 & rendered & old & new & evs1 & evs2 & evs3 & Hload0
          & Hrender & _ & _ & _ & _ & _ & _ & _ & _ & _ & Hsaved)]]];
    rewrite Hrun in *; try done.
  simpl in Hsaved. destruct (Hsaved result eq_refl) as [_ Hrecords].
  specialize (Hrecords eq_refl).
  exists schema0, rendered. cbv zeta.
  rewrite Hrecords, lookup_insert_eq. repeat split; try done.
  intros name d Hd. simpl. unfold upgrade_user_inputs, dict_merge.
  destruct (Application.user_inputs application !! name) as [v|] eqn:Hv.
  - exists v. by apply lookup_union_Some_l.
  - exists d. by rewrite lookup_union_r.
Qed.

(** ** Failures never write *)

(** Whatever a lifecycle operation raises, and for whatever reason, the
    store is the one it started from: [install] has created no record,
    [upgrade] and [update_user_inputs] have saved nothing, [terminate] has
    deleted nothing. *)
Theorem raising_operation_leaves_store_unchanged :
  (∀ context_name namespace user template inputs dry_run st e,
     (install context_name namespace user template inputs dry_run st).1
     = inl e →
     db (install context_name namespace user template inputs dry_run st).2
     = db st)
  ∧ (∀ application template dry_run st e,
       (upgrade application template dry_run st).1 = inl e →
       db (upgrade application template dry_run st).2 = db st)
  ∧ (∀ application inputs dry_run st e,
       (update_user_inputs application inputs dry_run st).1 = inl e →
       db (update_user_inputs application inputs dry_run st).2 = db st)
  ∧ (∀ application st e,
       (terminate application st).1 = inl e →
       db (terminate application st).2 = db st).
Proof.
  split; [|split; [|split]].
  - intros context_name namespace user template inputs dry_run st e.
    unfold install. run_prechecks; try done.
    pose proof (install_charts_run context_name namespace user dry_run
                  (enumerate (TemplateSchema.charts schema)) ∅ st) as Hrun.
    simpl in Hrun.
    destruct install_charts as [[[[e' index] chart]|results] st1].
    + destruct Hrun as (j & _ & _ & _ & Hdb).
      destruct e' as [m| | | |]; simpl; try done.
      destruct dry_run; simpl; [done|].
      unfold mbind, M_bind. simpl.
      match goal with
      | |- context [install_rollback ?c ?n ?u ?t ?i ?s] =>
          destruct (install_rollback_events c n u t i s)
            as (evs & _ & Hdb' & _);
          destruct (install_rollback c n u t i s) as [[?|[]] st2]
      end; simpl in *; intros _; by rewrite Hdb'.
    + destruct dry_run; simpl; done.
  - intros application template dry_run st e.
    upgrade_prechecks; try done.
    match goal with
    | |- context [upgrade_install ?a ?t ?d ?n ?todo ?r ?i] =>
        pose proof (upgrade_install_run a t d n todo r i st) as Hphase;
        cbv zeta in Hphase;
        destruct (upgrade_install a t d n todo r i st)
          as [[e'|results] st1] eqn:Hrun1
    end.
    { rewrite (bind_inl _ _ _ _ _ Hrun1).
      by destruct Hphase as (evs & _ & Hdb & _). }
    rewrite (bind_inr _ _ _ _ _ Hrun1).
    destruct Hphase as (charts & _ & _ & _ & Hdb1).
    match goal with
    | |- context [upgrade_update ?a ?d ?n ?todo ∅] =>
        pose proof (upgrade_update_run a d n todo ∅ st1) as Hupdate;
        destruct (upgrade_update a d n todo ∅ st1)
          as [[e'|update_results] st2] eqn:Hrun2
    end.
    { rewrite (bind_inl _ _ _ _ _ Hrun2).
      destruct Hupdate as (evs & last & _ & _ & _ & _ & Hdb2).
      simpl. by rewrite Hdb2. }
    rewrite (bind_inr _ _ _ _ _ Hrun2).
    destruct Hupdate as (evs2 & _ & _ & _ & _ & Hdb2).
    match goal with
    | |- context [upgrade_remove ?a ?d ?o ?todo] =>
        destruct (upgrade_remove_run a d o todo st2)
          as (evs3 & _ & Hdb3 & _);
        cbv zeta in Hdb3;
        destruct (upgrade_remove a d o todo st2) as [[e'|[]] st3] eqn:Hrun3
    end.
    { rewrite (bind_inl _ _ _ _ _ Hrun3). simpl in *.
      by rewrite Hdb3, Hdb2. }
    rewrite (bind_inr _ _ _ _ _ Hrun3). by destruct dry_run.
  - intros application inputs dry_run st e.
    unfold update_user_inputs. unfold mbind, M_bind, lift.
    destruct (load_template (Application.manifest application))
      as [?|old_template_schema]; [done|].
    destruct (validate_inputs _ _) as [?|[]]; [done|].
    destruct (check_user_inputs _ _ _) as [?|[]]; [done|].
    destruct (render_template _ _) as [?|new_manifes]; [done|].
    destruct (load_template new_manifes) as [?|new_template_schema]; [done|].
    pose proof (update_releases_run application dry_run
                  (TemplateSchema.chart_mapping new_template_schema) ∅ st)
      as Hrun.
    simpl in Hrun.
    destruct update_releases as [[?|update_results] st1].
    + by destruct Hrun as (j & item & _ & _ & _ & Hdb).
    + by destruct dry_run.
  - intros application st e.
    destruct (load_template (Application.manifest application))
      as [e'|manifest_schema] eqn:Hload.
    { unfold terminate. by rewrite (bind_lift_raise _ _ _ _ Hload). }
    rewrite (terminate_unfold _ _ _ Hload).
    destruct (for_each_sweep_any
                (application_uninstall_call application None) true
                (λ c, terminate_message c application)
                (TemplateSchema.charts manifest_schema) st) as (Hdb & _).
    cbv zeta in Hdb.
    destruct (for_each _ _ st) as [[e'|[]] st1] eqn:Hrun.
    + by rewrite (bind_inl _ _ _ _ _ Hrun).
    + by rewrite (bind_inr _ _ _ _ _ Hrun).
Qed.
End MoreProperties.









(** * Authorization *)

Section AuthorizationProperties.
Context {authentication : Authentication}.

(** The checks of [authorize] come before the comparison of the role and
    do not depend on the class: what one class raises, every class
    raises. *)
Lemma authorize_error_any_class (cls cls' : Permission) request e :
  authorize cls request = inl e → authorize cls' request = inl e.
Proof.
  unfold authorize.
  destruct (truthy (Request.headers request !! "authorization"));
    [|done].
  destruct (extract_token_data _) as [[]|token_data]; try done.
  by destruct (truthy (token_data !! "user_role")).
Qed.

Lemma AuthorizedUser_cons (permissions : list Permission) :
  ∃ permission permissions',
    AuthorizedUser permissions = permission :: permissions'.
Proof.
  unfold AuthorizedUser. case_decide as Hin; [|eauto].
  destruct permissions; [by apply elem_of_nil in Hin|eauto].
Qed.

Lemma elem_of_AuthorizedUser (permissions : list Permission) cls :
  cls ∈ AuthorizedUser permissions
  ↔ cls = AdminRolePermission ∨ cls ∈ permissions.
Proof.
  unfold AuthorizedUser. case_decide as Hin.
  - split; [auto|]. by intros [->|].
  - by rewrite elem_of_cons.
Qed.

(** When the checks pass, the loop lets the request through exactly when
    one of the classes has the role of the token. *)
Lemma authorize_any_decision (permissions : list Permission) request
    user_role :
  (∀ cls, authorize cls request
          = inr (bool_decide (Some user_role = role cls))) →
  authorize_any permissions request
  = if bool_decide (Exists (λ cls, Some user_role = role cls) permissions)
    then inr ()
    else inl (CommonException forbidden_message HTTP_403_FORBIDDEN).
Proof.
  intros Hall. induction permissions as [|cls permissions IH]; simpl.
  - done.
  - rewrite Hall.
    destruct (decide (Some user_role = role cls)) as [Hrole|Hrole].
    + rewrite (bool_decide_eq_true_2 _ Hrole).
      rewrite bool_decide_eq_true_2; [done|]. by left.
    + rewrite (bool_decide_eq_false_2 _ Hrole), IH.
      apply (f_equal (λ b : bool,
                        if b then inr ()
                        else inl (CommonException forbidden_message
                                    HTTP_403_FORBIDDEN))).
      apply bool_decide_ext. rewrite Exists_cons. tauto.
Qed.

(** A request that fails a check of [authorize] is refused with the
    exception of that check, whatever permissions the [AuthorizedUser] was
    built with, the empty tuple included: 401 when the header is absent or
    empty, 401 when the token has expired, 401 when the payload has no
    role. Any other error of the decoding is not handled and leaves the
    call as it is. *)
Theorem authorization_check_failures (permissions : list Permission)
    (request : Request.t) :
  let given := truthy (Request.headers request !! "authorization") in
  (given = None →
   AuthorizedUser_call permissions request
   = inl (CommonException header_absent_message HTTP_401_UNAUTHORIZED))
  ∧ (∀ authorization_header,
       given = Some authorization_header →
       let decoded :=
         extract_token_data (string_drop 7 authorization_header) in
       (decoded = inl ExpiredSignatureError →
        AuthorizedUser_call permissions request
        = inl (CommonException "Expired JWT token." HTTP_401_UNAUTHORIZED))
       ∧ (∀ description,
            decoded = inl (OtherPyJWTError description) →
            AuthorizedUser_call permissions request
            = inl (OtherException description))
       ∧ (∀ token_data,
            decoded = inr token_data →
            truthy (token_data !! "user_role") = None →
            AuthorizedUser_call permissions request
            = inl (CommonException "Unknown user role."
                     HTTP_401_UNAUTHORIZED))).
Proof.
  assert (∀ e, authorize AdminRolePermission request = inl e →
               AuthorizedUser_call permissions request = inl e) as Hfirst.
  { intros e He. unfold AuthorizedUser_call.
    destruct (AuthorizedUser_cons permissions) as (cls & l & ->). simpl.
    by rewrite (authorize_error_any_class _ cls _ _ He). }
  cbv zeta. split.
  - intros Hgiven. apply Hfirst. unfold authorize. by rewrite Hgiven.
  - intros authorization_header Hgiven. repeat split.
    + intros Hdecoded. apply Hfirst. unfold authorize.
      by rewrite Hgiven, Hdecoded.
    + intros description Hdecoded. apply Hfirst. unfold authorize.
      by rewrite Hgiven, Hdecoded.
    + intros token_data Hdecoded Hrole. apply Hfirst. unfold authorize.
      by rewrite Hgiven, Hdecoded, Hrole.
Qed.

(** A request whose token decodes to a payload with a role is let through
    exactly when the role is the admin role, which every [AuthorizedUser]
    accepts whether or not it was built with [AdminRolePermission], or the
    operator role and [OperatorRolePermission] is among the permissions;
    otherwise it is refused with 403. *)
Theorem authorization_decision (permissions : list Permission)
    (request : Request.t) authorization_header token_data user_role :
  truthy (Request.headers request !! "authorization")
  = Some authorization_header →
  extract_token_data (string_drop 7 authorization_header)
  = inr token_data →
  truthy (token_data !! "user_role") = Some user_role →
  AuthorizedUser_call permissions request
  = if bool_decide
         (user_role = Roles_admin
          ∨ (OperatorRolePermission ∈ permissions
             ∧ user_role = Roles_operator))
    then inr ()
    else inl (CommonException forbidden_message HTTP_403_FORBIDDEN).
Proof.
  intros Hgiven Hdecoded Hrole. unfold AuthorizedUser_call.
  rewrite (authorize_any_decision _ _ user_role).
  - apply (f_equal (λ b : bool,
                      if b then inr ()
                      else inl (CommonException forbidden_message
                                  HTTP_403_FORBIDDEN))).
    apply bool_decide_ext. rewrite Exists_exists. split.
    + intros (cls & Hin & Hcls).
      apply elem_of_AuthorizedUser in Hin.
      destruct cls; simpl in Hcls; try done.
      * left. congruence.
      * destruct Hin as [|Hin]; [done|]. right. split; [done|congruence].
    + intros [->|[Hin ->]].
      * exists AdminRolePermission. split; [|done].
        apply elem_of_AuthorizedUser. by left.
      * exists OperatorRolePermission. split; [|done].
        apply elem_of_AuthorizedUser. by right.
  - intros cls. unfold authorize. by rewrite Hgiven, Hdecoded, Hrole.
Qed.

(** The first seven characters of the header are cut off, not read: two
    requests whose headers agree from the eighth character on get the
    same answer, whether or not the header starts with the scheme. *)
Theorem authorization_ignores_scheme (permissions : list Permission)
    (request request' : Request.t) header header' :
  truthy (Request.headers request !! "authorization") = Some header →
  truthy (Request.headers request' !! "authorization") = Some header' →
  string_drop 7 header = string_drop 7 header' →
  AuthorizedUser_call permissions request
  = AuthorizedUser_call permissions request'.
Proof.
  intros Hheader Hheader' Htoken.
  assert (∀ cls, authorize cls request = authorize cls request') as Hsame.
  { intros cls. unfold authorize. by rewrite Hheader, Hheader', Htoken. }
  unfold AuthorizedUser_call.
  induction (AuthorizedUser permissions) as [|cls l IH]; simpl; [done|].
  by rewrite Hsame, IH.
Qed.
End AuthorizationProperties.

(** * Helm time stamps *)

Section TimeStamps.

Lemma split_go_word (word part rest : str) :
  no_space part = true →
  split_go (Some word) (part ++ rest) = split_go (Some (word ++ part)) rest.
Proof.
  revert word. induction part as [|c part IH]; intros word Hpart.
  - by rewrite app_nil_r.
  - simpl in Hpart. apply andb_true_iff in Hpart as [Hc Hpart].
    apply negb_true_iff in Hc. simpl. rewrite Hc. simpl.
    rewrite IH by done. by rewrite <- app_assoc.
Qed.

Lemma split_go_part (part rest : str) :
  is_part part = true →
  split_go None (part ++ rest) = split_go (Some part) rest.
Proof.
  destruct part as [|c part]; [done|]. unfold is_part.
  intros [Hc Hpart]%andb_true_iff. apply negb_true_iff in Hc.
  simpl. rewrite Hc. simpl. by rewrite split_go_word.
Qed.

Lemma split_go_space (word rest : str) :
  split_go (Some word) (space ++ rest) = word :: split_go None rest.
Proof. reflexivity. Qed.

(** Splitting undoes joining with single spaces. *)
Lemma str_split_join (parts : list str) :
  Forall (λ part, is_part part = true) parts →
  str_split (str_join space parts) = parts.
Proof.
  unfold str_split. induction 1 as [|part parts Hpart Hparts IH]; [done|].
  destruct parts as [|part' parts].
  - simpl. rewrite <- (app_nil_r part) at 1.
    by rewrite split_go_part.
  - change (str_join space (part :: part' :: parts))
      with (part ++ space ++ str_join space (part' :: parts)).
    rewrite split_go_part by done. by rewrite split_go_space, IH.
Qed.

(** What [parse_datetime] makes of a time stamp whose parts are joined by
    single spaces: without a second part it raises [IndexError]; otherwise
    it parses the parts without the last one, the second one cut to its
    first 15 characters. For the four parts that Helm writes (date, time,
    offset, zone) the text parsed is the date, the time with six digits
    of the second's fraction, and the offset. *)
Theorem fixed_value_of_parts (parts : list str) :
  Forall (λ part, is_part part = true) parts →
  fixed_value (str_join space parts)
  = match parts !! 1 with
    | None => inl list_index_out_of_range
    | Some time =>
        inr (str_join space (drop_last (<[1 := take 15 time]> parts)))
    end
  ∧ ∀ date time offset zone {D E} (strptime : str → E + D),
      parts = [date; time; offset; zone] →
      fixed_value (date ++ space ++ time ++ space ++ offset ++ space ++ zone)
      = inr (date ++ space ++ take 15 time ++ space ++ offset)
      ∧ parse_datetime strptime
          (date ++ space ++ time ++ space ++ offset ++ space ++ zone)
        = match strptime (date ++ space ++ take 15 time ++ space
                          ++ offset) with
          | inl e => inl (inr e)
          | inr parsed_datetime => inr parsed_datetime
          end.
Proof.
  intros Hparts.
  assert (fixed_value (str_join space parts)
          = match parts !! 1 with
            | None => inl list_index_out_of_range
            | Some time =>
                inr (str_join space
                       (drop_last (<[1 := take 15 time]> parts)))
            end) as Hfixed
    by (unfold fixed_value; by rewrite str_split_join).
  split; [done|].
  intros date time offset zone D E strptime ->.
  change (date ++ space ++ time ++ space ++ offset ++ space ++ zone)
    with (str_join space [date; time; offset; zone]).
  unfold parse_datetime. rewrite Hfixed. done.
Qed.
End TimeStamps.

(** ** The scenarios, run *)

Ltac ex_helm_only :=
  let call := fresh in let w := fresh in let e := fresh in
  intros call w e; simpl; unfold ex_helm_manager;
  match goal with |- context [if ?b then _ else _] => destruct b end;
  simpl; intros [= <-]; reflexivity.

(** Three charts, the install of the third fails, and so does the
    uninstall of the second during the rollback. *)
Lemma install_failure_rolls_back_in_reverse_witness :
  let run :=
    install
      (collaborators :=
         ex_collaborators
           (λ call, fails_install_of "cache" call
                    || fails_uninstall_of "db" call))
      "prod" "default" ex_user (ex_template "web,db,cache") ex_user_inputs
      false (ex_state ex_empty_store) in
  run.1 = inl (HelmException "helm failed: cache")
  ∧ (trace run.2).*1
    = [ install_chart ex_organization "prod" "default" "web" "repo/web"
          "1.0.0" "{}" false;
        install_chart ex_organization "prod" "default" "db" "repo/db"
          "1.0.0" "{}" false;
        install_chart ex_organization "prod" "default" "cache" "repo/cache"
          "1.0.0" "{}" false;
        uninstall_release ex_organization "prod" "default" "db" None;
        uninstall_release ex_organization "prod" "default" "web" None ]
  ∧ uninstalled_release_names (new_events (ex_state ex_empty_store) run.2)
    = ["db"; "web"]
  ∧ db run.2 = ex_empty_store.
Proof.
  intros run.
  destruct (install_failure_rolls_back_in_reverse
              (collaborators :=
                 ex_collaborators
                   (λ call, fails_install_of "cache" call
                            || fails_uninstall_of "db" call))
              "prod" "default" ex_user (ex_template "web,db,cache")
              ex_user_inputs (ex_state ex_empty_store) 3
              (install_chart ex_organization "prod" "default" "cache"
                 "repo/cache" "1.0.0" "{}" false)
              "helm failed: cache")
    as (manifest & manifest_schema & chart & outcomes & Hrender & Hload
        & Hchart & Hfailing & Hlen & Htr & Hnames & Hlog & Hraised & Hdb).
  - ex_helm_only.
  - lia.
  - vm_compute. reflexivity.
  - simpl in Hrender. injection Hrender as <-.
    vm_compute in Hload. injection Hload as <-.
    destruct outcomes as [|o1 [|o2 [|o3 outcomes]]]; try discriminate Hlen.
    split; [exact Hraised|]. split; [|split; [exact Hnames|exact Hdb]].
    subst run. rewrite Htr. reflexivity.
Defined.

Lemma install_dry_run_failure_is_not_rolled_back_witness :
  filter (λ ev : HelmCall string * option exn, is_uninstall ev.1)
    (new_events (ex_state ex_empty_store)
       (install
          (collaborators := ex_collaborators (fails_install_of "backend"))
          "prod" "default" ex_user (ex_template "frontend,backend")
          ex_user_inputs true (ex_state ex_empty_store)).2) = [].
Proof.
  destruct (install_dry_run_failure_is_not_rolled_back
              (collaborators := ex_collaborators (fails_install_of "backend"))
              "prod" "default" ex_user (ex_template "frontend,backend")
              ex_user_inputs (ex_state ex_empty_store) 2
              (install_call "prod" "default" ex_user true
                 (ex_chart "backend"))
              "helm failed: backend")
    as (_ & _ & _ & _ & _ & _ & _ & _ & Hnone & _).
  - lia.
  - vm_compute. reflexivity.
  - exact Hnone.
Defined.

(** Against C3 as stated. Scenario A with the dry-run flag set: [frontend]
    is installed, the install of [backend] fails, the exception is raised,
    and [frontend] gets no uninstall call. *)
Lemma install_dry_run_rollback_counterexample :
  (install (collaborators := ex_collaborators (fails_install_of "backend"))
     "prod" "default" ex_user (ex_template "frontend,backend") ex_user_inputs
     true (ex_state ex_empty_store)).1
  = inl (HelmException "helm failed: backend")
  ∧ trace
      (install
         (collaborators := ex_collaborators (fails_install_of "backend"))
         "prod" "default" ex_user (ex_template "frontend,backend")
         ex_user_inputs true (ex_state ex_empty_store)).2
    = [ (install_call "prod" "default" ex_user true (ex_chart "frontend"),
         None);
        (install_call "prod" "default" ex_user true (ex_chart "backend"),
         Some (HelmException "helm failed: backend")) ]
  ∧ ¬ ∃ ev,
        ev ∈ trace
               (install
                  (collaborators :=
                     ex_collaborators (fails_install_of "backend"))
                  "prod" "default" ex_user (ex_template "frontend,backend")
                  ex_user_inputs true (ex_state ex_empty_store)).2
        ∧ is_uninstall ev.1 = true.
Proof.
  split; [vm_compute; reflexivity|].
  split; [vm_compute; reflexivity|].
  intros (ev & Hin & Hun).
  assert (trace
            (install
               (collaborators :=
                  ex_collaborators (fails_install_of "backend"))
               "prod" "default" ex_user (ex_template "frontend,backend")
               ex_user_inputs true (ex_state ex_empty_store)).2
          = [ (install_call "prod" "default" ex_user true
                 (ex_chart "frontend"), None);
              (install_call "prod" "default" ex_user true
                 (ex_chart "backend"),
               Some (HelmException "helm failed: backend")) ]) as Htr
    by (vm_compute; reflexivity).
  rewrite Htr in Hin.
  repeat (apply elem_of_cons in Hin as [->|Hin]; [discriminate Hun|]).
  by apply elem_of_nil in Hin.
Qed.


(** Against C2 as stated. Scenario B with a failing update of [B]: the
    install of [C] goes through, the update of [B] raises, and [upgrade]
    raises it to the caller instead of returning a result map. *)
Lemma upgrade_update_failure_counterexample :
  (upgrade (collaborators := ex_collaborators (fails_update_of "B"))
     (ex_application "A,B" "A,B") (ex_template "B,C") false
     (ex_state (ex_store "A,B" "A,B"))).1
  = inl (HelmException "helm failed: B")
  ∧ trace
      (upgrade (collaborators := ex_collaborators (fails_update_of "B"))
         (ex_application "A,B" "A,B") (ex_template "B,C") false
         (ex_state (ex_store "A,B" "A,B"))).2
    = [ (application_install_call (ex_application "A,B" "A,B") false
           (ex_chart "C"), None);
        (application_update_call (ex_application "A,B" "A,B") false "B"
           (ex_chart "B"), Some (HelmException "helm failed: B")) ].
Proof. split; vm_compute; reflexivity. Qed.

Lemma upgrade_update_failure_propagates_witness :
  (upgrade (collaborators := ex_collaborators (fails_update_of "B"))
     (ex_application "A,B" "A,B") (ex_template "B,C") true
     (ex_state (ex_store "A,B" "A,B"))).1
  = inl (HelmException "helm failed: B").
Proof.
  refine (proj1 (upgrade_update_failure_propagates
                   (collaborators := ex_collaborators (fails_update_of "B"))
                   (ex_application "A,B" "A,B") (ex_template "B,C") true
                   (ex_state (ex_store "A,B" "A,B"))
                   (application_update_call (ex_application "A,B" "A,B")
                      true "B" (ex_chart "B"))
                   (HelmException "helm failed: B") _ _)).
  - apply list_elem_of_lookup. exists 1. vm_compute. reflexivity.
  - reflexivity.
Defined.

Lemma upgrade_merge_precedence_witness :
  upgrade_user_inputs (ex_schema ["B"; "C"] ex_inputs)
    (Application.set_user_inputs ex_partial_inputs
       (ex_application "A,B" "A,B")) !! "replicas" = Some "2"
  ∧ upgrade_user_inputs (ex_schema ["B"; "C"] ex_inputs)
      (Application.set_user_inputs ex_partial_inputs
         (ex_application "A,B" "A,B")) !! "zone" = Some "a".
Proof.
  split.
  - refine (proj1 (upgrade_merge_precedence
                     (collaborators := ex_collaborators never_fails)
                     (ex_schema ["B"; "C"] ex_inputs)
                     (Application.set_user_inputs ex_partial_inputs
                        (ex_application "A,B" "A,B")) "replicas")
              "1" "2" _ _); vm_compute; reflexivity.
  - refine (proj1 (proj2 (upgrade_merge_precedence
                            (collaborators := ex_collaborators never_fails)
                            (ex_schema ["B"; "C"] ex_inputs)
                            (Application.set_user_inputs ex_partial_inputs
                               (ex_application "A,B" "A,B")) "zone"))
              "a" _ _); vm_compute; reflexivity.
Defined.

Lemma update_user_inputs_validation_witness :
  update_user_inputs (collaborators := ex_collaborators never_fails)
    (ex_application "A,B" "A,B") ex_short_inputs false
    (ex_state (ex_store "A,B" "A,B"))
  = (inl (InvalidUserInputsException keys_not_equal_message),
     ex_state (ex_store "A,B" "A,B"))
  ∧ update_user_inputs (collaborators := ex_collaborators never_fails)
      (ex_application "A,B" "A,B") ex_changed_inputs false
      (ex_state (ex_store "A,B" "A,B"))
    = (inl (InvalidUserInputsException
              "Next inputs are immutable and cannot be changed: region, zone."),
       ex_state (ex_store "A,B" "A,B")).
Proof.
  split.
  - refine (proj1 (update_user_inputs_validation
                     (collaborators := ex_collaborators never_fails)
                     (ex_application "A,B" "A,B") ex_short_inputs false
                     (ex_state (ex_store "A,B" "A,B"))
                     (ex_schema ["A"; "B"] ex_inputs) _ _) _).
    + reflexivity.
    + reflexivity.
    + apply (bool_decide_unpack _). vm_compute. exact I.
  - destruct (proj2 (update_user_inputs_validation
                       (collaborators := ex_collaborators never_fails)
                       (ex_application "A,B" "A,B") ex_changed_inputs false
                       (ex_state (ex_store "A,B" "A,B"))
                       (ex_schema ["A"; "B"] ex_inputs) eq_refl eq_refl))
      as (violating_inputs & Hrun & Hviolating & _).
    + apply (bool_decide_unpack _). vm_compute. exact I.
    + apply (bool_decide_unpack _). vm_compute. exact I.
    + apply (bool_decide_unpack _). vm_compute. exact I.
    + rewrite Hrun, Hviolating. reflexivity.
Defined.

(** C6, at an input where the code breaks it. The application was
    installed without [zone], an immutable input that has a default, so
    its stored inputs are [region] and [replicas]. The new inputs have
    the same keys and change the immutable [region]: the claim asks for
    an [InvalidUserInputsException] that lists [region]. The check reads
    every immutable input from both dictionaries, and [update_user_inputs]
    raises [KeyError] for [zone] instead; it issues no chart call and
    writes nothing. *)
Theorem update_user_inputs_validation_key_error :
  let st := ex_state ex_partial_store in
  let run :=
    update_user_inputs (collaborators := ex_collaborators never_fails)
      ex_partial_application ex_partial_changed_inputs false st in
  load_template (Collaborators := ex_collaborators never_fails)
    (Application.manifest ex_partial_application)
  = inr (ex_schema ["A"; "B"] ex_inputs)
  ∧ immutable_inputs (ex_schema ["A"; "B"] ex_inputs) = ["region"; "zone"]
  ∧ dom ex_partial_changed_inputs
    = dom (Application.user_inputs ex_partial_application)
  ∧ Application.user_inputs ex_partial_application !! "region"
    = Some "us-east"
  ∧ ex_partial_changed_inputs !! "region" = Some "us-west"
  ∧ ex_partial_changed_inputs !! "zone" = None
  ∧ run = (inl (KeyError "zone"), st)
  ∧ ∀ message, run.1 ≠ inl (InvalidUserInputsException message).
Proof.
  intros st run. subst run st.
  split; [reflexivity|]. split; [reflexivity|].
  split; [apply (bool_decide_unpack _); vm_compute; exact I|].
  split; [vm_compute; reflexivity|]. split; [vm_compute; reflexivity|].
  split; [vm_compute; reflexivity|]. split; [vm_compute; reflexivity|].
  intros message Hrun. vm_compute in Hrun. discriminate Hrun.
Qed.


Lemma dry_run_does_not_persist_witness :
  db (install (collaborators := ex_collaborators never_fails)
        "prod" "default" ex_user (ex_template "frontend,backend")
        ex_user_inputs true (ex_state ex_empty_store)).2
  = ex_empty_store
  ∧ db (upgrade (collaborators := ex_collaborators never_fails)
          (ex_application "A,B" "A,B") (ex_template "B,C") true
          (ex_state (ex_store "A,B" "A,B"))).2
    = ex_store "A,B" "A,B"
  ∧ db (update_user_inputs (collaborators := ex_collaborators never_fails)
          (ex_application "A,B" "B,C") ex_new_inputs true
          (ex_state (ex_store "A,B" "B,C"))).2
    = ex_store "A,B" "B,C".
Proof.
  destruct (dry_run_does_not_persist
              (collaborators := ex_collaborators never_fails))
    as (Hinstall & Hupgrade & Hupdate).
  split; [|split].
  - refine (proj1 (proj2 (Hinstall "prod" "default" ex_user
                            (ex_template "frontend,backend") ex_user_inputs
                            (ex_state ex_empty_store)
                            (None, {[ "frontend" := "ok: frontend";
                                      "backend" := "ok: backend" ]})
                            _ _))).
    vm_compute. reflexivity.
  - refine (proj1 (Hupgrade (ex_application "A,B" "A,B") (ex_template "B,C")
                     (ex_state (ex_store "A,B" "A,B"))
                     {| installed_releases := {[ "C" := "ok: C" ]};
                        updated_releases := {[ "B" := "ok: B" ]};
                        uninstalled_releases := ["A"] |}
                     _ _)).
    vm_compute. reflexivity.
  - refine (proj1 (Hupdate (ex_application "A,B" "B,C") ex_new_inputs
                     (ex_state (ex_store "A,B" "B,C"))
                     {[ "B" := "ok: B"; "C" := "ok: C" ]} _ _)).
    vm_compute. reflexivity.
Defined.

(** Three charts, the uninstall of the second fails. *)
Lemma terminate_uninstalls_all_then_deletes_witness :
  let st := ex_state (ex_store "web,db,cache" "web,db,cache") in
  let run :=
    terminate (collaborators := ex_collaborators (fails_uninstall_of "db"))
      (ex_application "web,db,cache" "web,db,cache") st in
  run.1 = inr ()
  ∧ (trace run.2).*1
    = [ uninstall_release ex_organization "prod" "default" "web" None;
        uninstall_release ex_organization "prod" "default" "db" None;
        uninstall_release ex_organization "prod" "default" "cache" None ]
  ∧ uninstalled_release_names (new_events st run.2) = ["web"; "db"; "cache"]
  ∧ records (db run.2) !! 1%Z = None.
Proof.
  intros st run.
  destruct (terminate_uninstalls_all_then_deletes
              (collaborators := ex_collaborators (fails_uninstall_of "db"))
              (ex_application "web,db,cache" "web,db,cache")
              (ex_schema ["web"; "db"; "cache"] ex_inputs)
              (ex_state (ex_store "web,db,cache" "web,db,cache")))
    as (outcomes & Hlen & Hok & Htr & _ & Hnames & _ & _ & Hgone).
  - ex_helm_only.
  - reflexivity.
  - destruct outcomes as [|o1 [|o2 [|o3 [|o4 outcomes]]]];
      try discriminate Hlen.
    split; [exact Hok|]. split; [|split; [exact Hnames|exact Hgone]].
    subst run st. rewrite Htr. reflexivity.
Defined.

Lemma update_user_inputs_persists_manifest_only_witness :
  Application.user_inputs
  <$> records
        (db (update_user_inputs
               (collaborators := ex_collaborators never_fails)
               (ex_application "A,B" "B,C") ex_new_inputs false
               (ex_state (ex_store "A,B" "B,C"))).2) !! 1%Z
  = Some ex_user_inputs.
Proof.
  destruct (update_user_inputs_persists_manifest_only
              (collaborators := ex_collaborators never_fails)
              (ex_application "A,B" "B,C") ex_new_inputs
              (ex_state (ex_store "A,B" "B,C"))
              {[ "B" := "ok: B"; "C" := "ok: C" ]}
              (update_user_inputs
                 (collaborators := ex_collaborators never_fails)
                 (ex_application "A,B" "B,C") ex_new_inputs false
                 (ex_state (ex_store "A,B" "B,C"))).2)
    as (new_manifes & _ & _ & Hsaved & _ & Hinputs & _).
  - vm_compute. reflexivity.
  - cbv zeta in Hsaved, Hinputs. simpl in Hsaved.
    rewrite Hsaved. simpl. reflexivity.
Defined.

(** ** More scenarios, run *)

Lemma install_success_creates_record_witness :
  next_id
    (db (install (collaborators := ex_collaborators never_fails)
           "prod" "default" ex_user (ex_template "frontend,backend")
           ex_user_inputs false (ex_state ex_empty_store)).2) = 2%Z.
Proof.
  destruct (install_success_creates_record
              (collaborators := ex_collaborators never_fails)
              "prod" "default" ex_user (ex_template "frontend,backend")
              ex_user_inputs (ex_state ex_empty_store)
              (Some {| Application.id := 1; Application.name := "shop";
                       Application.description := EmptyString;
                       Application.manifest := "frontend,backend";
                       Application.status := running;
                       Application.context_name := "prod";
                       Application.namespace := "default";
                       Application.user_inputs := ex_user_inputs;
                       Application.template :=
                         ex_template "frontend,backend";
                       Application.creator_id := "3f2c";
                       Application.organization := ex_organization |},
               {[ "frontend" := "ok: frontend"; "backend" := "ok: backend" ]})
              (install (collaborators := ex_collaborators never_fails)
                 "prod" "default" ex_user (ex_template "frontend,backend")
                 ex_user_inputs false (ex_state ex_empty_store)).2)
    as (manifest & manifest_schema & _ & _ & _ & _ & _ & _ & _ & Hnext).
  - vm_compute. reflexivity.
  - exact Hnext.
Defined.

Lemma install_other_exception_skips_rollback_witness :
  (install
     (collaborators :=
        ex_collaborators_with (fails_install_of "backend") never_fails)
     "prod" "default" ex_user (ex_template "frontend,backend") ex_user_inputs
     false (ex_state ex_empty_store)).1
  = inl (OtherException "connection lost: backend").
Proof.
  destruct (install_other_exception_skips_rollback
              (collaborators :=
                 ex_collaborators_with (fails_install_of "backend")
                   never_fails)
              "prod" "default" ex_user (ex_template "frontend,backend")
              ex_user_inputs false (ex_state ex_empty_store) 2
              (install_call "prod" "default" ex_user false
                 (ex_chart "backend"))
              (OtherException "connection lost: backend"))
    as (_ & _ & _ & _ & _ & _ & _ & _ & _ & Hraised & _).
  - lia.
  - vm_compute. reflexivity.
  - reflexivity.
  - exact Hraised.
Defined.

Lemma install_rollback_stops_at_other_exception_witness :
  (install
     (collaborators :=
        ex_collaborators_with (fails_uninstall_of "db")
          (fails_install_of "cache"))
     "prod" "default" ex_user (ex_template "web,db,cache") ex_user_inputs
     false (ex_state ex_empty_store)).1
  = inl (OtherException "connection lost: db").
Proof.
  destruct (install_rollback_stops_at_other_exception
              (collaborators :=
                 ex_collaborators_with (fails_uninstall_of "db")
                   (fails_install_of "cache"))
              "prod" "default" ex_user (ex_template "web,db,cache")
              ex_user_inputs (ex_state ex_empty_store) 3
              (install_call "prod" "default" ex_user false (ex_chart "cache"))
              "helm failed: cache"
              (install_rollback_call "prod" "default" ex_user (ex_chart "db"))
              (OtherException "connection lost: db"))
    as (_ & _ & _ & _ & _ & _ & _ & _ & _ & _ & _ & Hraised & _).
  - lia.
  - vm_compute. reflexivity.
  - apply list_elem_of_lookup. exists 3. vm_compute. reflexivity.
  - reflexivity.
  - reflexivity.
  - exact Hraised.
Defined.

Lemma terminate_stops_at_other_exception_witness :
  db (terminate
        (collaborators :=
           ex_collaborators_with (fails_uninstall_of "db") never_fails)
        (ex_application "web,db,cache" "web,db,cache")
        (ex_state (ex_store "web,db,cache" "web,db,cache"))).2
  = ex_store "web,db,cache" "web,db,cache".
Proof.
  destruct (terminate_stops_at_other_exception
              (collaborators :=
                 ex_collaborators_with (fails_uninstall_of "db") never_fails)
              (ex_application "web,db,cache" "web,db,cache")
              (ex_schema ["web"; "db"; "cache"] ex_inputs)
              (ex_state (ex_store "web,db,cache" "web,db,cache"))
              (application_uninstall_call
                 (ex_application "web,db,cache" "web,db,cache") None
                 (ex_chart "db"))
              (OtherException "connection lost: db"))
    as (_ & _ & _ & _ & _ & _ & _ & _ & Hdb).
  - reflexivity.
  - apply list_elem_of_lookup. exists 1. vm_compute. reflexivity.
  - reflexivity.
  - exact Hdb.
Defined.

Lemma raising_operation_leaves_store_unchanged_witness :
  db (install (collaborators := ex_collaborators (fails_install_of "backend"))
        "prod" "default" ex_user (ex_template "frontend,backend")
        ex_user_inputs false (ex_state ex_empty_store)).2
  = ex_empty_store
  ∧ db (upgrade (collaborators := ex_collaborators (fails_update_of "B"))
          (ex_application "A,B" "A,B") (ex_template "B,C") false
          (ex_state (ex_store "A,B" "A,B"))).2
    = ex_store "A,B" "A,B"
  ∧ db (update_user_inputs (collaborators := ex_collaborators never_fails)
          (ex_application "A,B" "A,B") ex_changed_inputs false
          (ex_state (ex_store "A,B" "A,B"))).2
    = ex_store "A,B" "A,B"
  ∧ db (terminate
          (collaborators :=
             ex_collaborators_with (fails_uninstall_of "db") never_fails)
          (ex_application "web,db,cache" "web,db,cache")
          (ex_state (ex_store "web,db,cache" "web,db,cache"))).2
    = ex_store "web,db,cache" "web,db,cache".
Proof.
  split; [|split; [|split]].
  - refine (proj1 (raising_operation_leaves_store_unchanged
                     (collaborators :=
                        ex_collaborators (fails_install_of "backend")))
              "prod" "default" ex_user (ex_template "frontend,backend")
              ex_user_inputs false (ex_state ex_empty_store)
              (HelmException "helm failed: backend") _).
    vm_compute. reflexivity.
  - refine (proj1 (proj2 (raising_operation_leaves_store_unchanged
                            (collaborators :=
                               ex_collaborators (fails_update_of "B"))))
              (ex_application "A,B" "A,B") (ex_template "B,C") false
              (ex_state (ex_store "A,B" "A,B"))
              (HelmException "helm failed: B") _).
    vm_compute. reflexivity.
  - refine (proj1 (proj2 (proj2 (raising_operation_leaves_store_unchanged
                                   (collaborators :=
                                      ex_collaborators never_fails))))
              (ex_application "A,B" "A,B") ex_changed_inputs false
              (ex_state (ex_store "A,B" "A,B"))
              (InvalidUserInputsException
                 (immutable_message ["region"; "zone"])) _).
    vm_compute. reflexivity.
  - refine (proj2 (proj2 (proj2 (raising_operation_leaves_store_unchanged
                                   (collaborators :=
                                      ex_collaborators_with
                                        (fails_uninstall_of "db")
                                        never_fails))))
              (ex_application "web,db,cache" "web,db,cache")
              (ex_state (ex_store "web,db,cache" "web,db,cache"))
              (OtherException "connection lost: db") _).
    vm_compute. reflexivity.
Defined.

Lemma update_user_inputs_update_failure_witness :
  (update_user_inputs (collaborators := ex_collaborators (fails_update_of "C"))
     (ex_application "A,B" "B,C") ex_new_inputs false
     (ex_state (ex_store "A,B" "B,C"))).1
  = inl (HelmException "helm failed: C").
Proof.
  destruct (update_user_inputs_update_failure
              (collaborators := ex_collaborators (fails_update_of "C"))
              (ex_application "A,B" "B,C") ex_new_inputs false
              (ex_state (ex_store "A,B" "B,C"))
              (application_update_call (ex_application "A,B" "B,C") false
                 "C" (ex_chart "C"))
              (HelmException "helm failed: C"))
    as (_ & _ & _ & _ & _ & _ & _ & _ & _ & Hraised & _).
  - apply list_elem_of_lookup. exists 1. vm_compute. reflexivity.
  - exact Hraised.
Defined.

Lemma update_user_inputs_missing_immutable_key_witness :
  update_user_inputs (collaborators := ex_collaborators never_fails)
    ex_partial_application ex_partial_changed_inputs false
    (ex_state (ex_store "A,B" "A,B"))
  = (inl (KeyError "zone"), ex_state (ex_store "A,B" "A,B")).
Proof.
  apply (update_user_inputs_missing_immutable_key
           (collaborators := ex_collaborators never_fails)
           ex_partial_application ex_partial_changed_inputs false
           (ex_state (ex_store "A,B" "A,B"))
           (ex_schema ["A"; "B"] ex_inputs) ["region"] "zone" []).
  - reflexivity.
  - reflexivity.
  - apply (bool_decide_unpack _). vm_compute. exact I.
  - reflexivity.
  - apply (bool_decide_unpack _). vm_compute. exact I.
  - apply (bool_decide_unpack _). vm_compute. exact I.
Defined.

Lemma input_defaults_last_wins_witness :
  input_defaults ex_repeated_inputs !! "replicas" = Some "5".
Proof.
  apply (proj2 (input_defaults_last_wins ex_repeated_inputs "replicas" "5")).
  exists 1, {| Input.name := "replicas"; Input.default := Some "5";
               Input.immutable := false |}.
  repeat split.
  intros j input' Hlt Hj _.
  destruct j as [|[|[|j]]]; [lia|lia| |discriminate Hj].
  injection Hj as <-. reflexivity.
Defined.

(** The upgrade installs three new charts; the install of the third
    fails, and so does the uninstall of the first during the rollback. *)
Lemma upgrade_install_failure_rolls_back_witness :
  let st := ex_state (ex_store "A,B" "A,B") in
  let run :=
    upgrade
      (collaborators :=
         ex_collaborators
           (λ call, fails_install_of "db" call
                    || fails_uninstall_of "web" call))
      (ex_application "A,B" "A,B") (ex_template "web,db,cache") false st in
  run.1 = inl (HelmException "helm failed: db")
  ∧ (new_events st run.2).*1
    = [ install_chart ex_organization "prod" "default" "web" "repo/web"
          "1.0.0" "{}" false;
        install_chart ex_organization "prod" "default" "cache" "repo/cache"
          "1.0.0" "{}" false;
        install_chart ex_organization "prod" "default" "db" "repo/db"
          "1.0.0" "{}" false;
        uninstall_release ex_organization "prod" "default" "cache" None;
        uninstall_release ex_organization "prod" "default" "web" None ]
  ∧ uninstalled_release_names (new_events st run.2) = ["cache"; "web"]
  ∧ db run.2 = ex_store "A,B" "A,B".
Proof.
  intros st run.
  destruct (upgrade_install_failure_rolls_back
              (collaborators :=
                 ex_collaborators
                   (λ call, fails_install_of "db" call
                            || fails_uninstall_of "web" call))
              (ex_application "A,B" "A,B") (ex_template "web,db,cache") false
              (ex_state (ex_store "A,B" "A,B")) 3
              (install_chart ex_organization "prod" "default" "db" "repo/db"
                 "1.0.0" "{}" false)
              "helm failed: db")
    as (installed & chart & outcomes & Hlen & Hfailing & Hevents & Hnames
        & Houtcomes & Hlog & Hraised & Hdb).
  - ex_helm_only.
  - lia.
  - vm_compute. reflexivity.
  - specialize (Houtcomes eq_refl).
    destruct installed as [|c1 [|c2 [|c3 installed]]];
      try discriminate Hlen.
    destruct outcomes as [|o1 [|o2 [|o3 outcomes]]];
      try discriminate Houtcomes.
    destruct c1 as [name1 chart1 version1 values1].
    destruct c2 as [name2 chart2 version2 values2].
    pose proof Hevents as Hcalls. vm_compute in Hcalls.
    injection Hcalls as <- <- <- <- <- <- <- <- _ _ _ _.
    split; [exact Hraised|]. split; [|split; [exact Hnames|exact Hdb]].
    subst run st. rewrite Hevents. reflexivity.
Defined.


Lemma upgrade_success_persists_witness :
  Application.manifest
  <$> records
        (db (upgrade (collaborators := ex_collaborators never_fails)
               (ex_application "A,B" "A,B") (ex_template "B,C") false
               (ex_state (ex_store "A,B" "A,B"))).2) !! 1%Z
  = Some "B,C".
Proof.
  destruct (upgrade_success_persists
              (collaborators := ex_collaborators never_fails)
              (ex_application "A,B" "A,B") (ex_template "B,C")
              (ex_state (ex_store "A,B" "A,B"))
              {| installed_releases := {[ "C" := "ok: C" ]};
                 updated_releases := {[ "B" := "ok: B" ]};
                 uninstalled_releases := ["A"] |}
              (upgrade (collaborators := ex_collaborators never_fails)
                 (ex_application "A,B" "A,B") (ex_template "B,C") false
                 (ex_state (ex_store "A,B" "A,B"))).2)
    as (schema0 & rendered & _ & Hrender & _ & Hsaved & _).
  - vm_compute. reflexivity.
  - cbv zeta in Hsaved. simpl in Hsaved, Hrender. rewrite Hsaved. simpl.
    injection Hrender as <-. reflexivity.
Defined.

Lemma authorization_check_failures_witness :
  AuthorizedUser_call (authentication := ex_authentication) []
    ex_request_without_header
  = inl (CommonException header_absent_message HTTP_401_UNAUTHORIZED).
Proof.
  apply (proj1 (authorization_check_failures
                  (authentication := ex_authentication) []
                  ex_request_without_header)).
  vm_compute. reflexivity.
Defined.

Lemma authorization_decision_witness :
  AuthorizedUser_call (authentication := ex_authentication)
    [OperatorRolePermission] (ex_request "Bearer operator-token") = inr ()
  ∧ AuthorizedUser_call (authentication := ex_authentication)
      [] (ex_request "Bearer operator-token")
    = inl (CommonException forbidden_message HTTP_403_FORBIDDEN).
Proof.
  split.
  - etrans.
    + apply (authorization_decision (authentication := ex_authentication)
               [OperatorRolePermission] (ex_request "Bearer operator-token")
               "Bearer operator-token"
               {[ "user_id" := "77aa"; "user_role" := "operator" ]}
               "operator"); vm_compute; reflexivity.
    + vm_compute. reflexivity.
  - etrans.
    + apply (authorization_decision (authentication := ex_authentication)
               [] (ex_request "Bearer operator-token")
               "Bearer operator-token"
               {[ "user_id" := "77aa"; "user_role" := "operator" ]}
               "operator"); vm_compute; reflexivity.
    + vm_compute. reflexivity.
Defined.

Lemma authorization_ignores_scheme_witness :
  AuthorizedUser_call (authentication := ex_authentication) []
    (ex_request "Bearer admin-token")
  = AuthorizedUser_call (authentication := ex_authentication) []
      (ex_request "Basic  admin-token").
Proof.
  apply (authorization_ignores_scheme (authentication := ex_authentication)
           [] (ex_request "Bearer admin-token")
           (ex_request "Basic  admin-token")
           "Bearer admin-token" "Basic  admin-token");
    vm_compute; reflexivity.
Defined.

Lemma fixed_value_of_parts_witness :
  fixed_value (str_of_string "2022-06-01 12:46:15.24955073 +0000 UTC")
  = inr (str_of_string "2022-06-01 12:46:15.249550 +0000").
Proof.
  refine (proj1 (proj2 (fixed_value_of_parts
                          [str_of_string "2022-06-01";
                           str_of_string "12:46:15.24955073";
                           str_of_string "+0000"; str_of_string "UTC"] _)
                   (str_of_string "2022-06-01")
                   (str_of_string "12:46:15.24955073")
                   (str_of_string "+0000") (str_of_string "UTC")
                   unit unit (λ _, inr ()) eq_refl)).
  repeat constructor.
Defined.
